(** * AI Carousel Generator: the outline schema, the deck renderer and the
      submit handler of [app.py], embedded in Rocq.

    [app.py] declares three Pydantic classes ([CoverSlide], [QASlide],
    [Carousel]), renders a [Carousel] into a python-pptx presentation
    ([build_pptx]) and wires both to a Streamlit form.  The development
    follows that order:

    - the carousel records and their validation from a JSON payload;
    - the part of the python-pptx object model that [build_pptx] touches,
      as a state with references into it, and [build_pptx] itself in a
      state-and-exception monad;
    - the body of [if submit:] as a function to a trace of UI events and
      outbound calls;
    - the theorems. *)

From Stdlib Require Import ZArith QArith_base String Ascii List Lia.
From stdpp Require Import base list strings.

Local Open Scope Z_scope.
Local Open Scope string_scope.

(* ====================================================================== *)
(** ** Exceptions *)

(** The Python exceptions that the modelled code can raise.
    [ValidationError] is what Pydantic raises on a payload that does not fit
    a model class; [ValueError] is what python-pptx and lxml raise on a
    value they do not take.  [ReferenceError] stands for a reference that
    points at nothing, which Python cannot construct; it is there to keep the
    store operations total. *)
Inductive Exn : Type :=
  | ValidationError
  | IndexError
  | KeyError
  | AttributeError
  | TypeError
  | ValueError
  | ReferenceError
  | TransportFailure.

(* ====================================================================== *)
(** ** Pydantic models (app.py, lines 41-57) *)

(** [Literal["cover"]] and [Literal["qa"]]: types with one value each. *)
Inductive Literal_cover : Type := LitCover.
Inductive Literal_qa : Type := LitQa.

Module CoverSlide.
Record t : Type := mk {
  slide_number : Z;
  type : Literal_cover;
  title : string;
  subtitle : string
}.
End CoverSlide.

Module QASlide.
Record t : Type := mk {
  slide_number : Z;
  type : Literal_qa;
  question : string;
  answer : string
}.
End QASlide.

Module Carousel.
Record t : Type := mk {
  cover : CoverSlide.t;
  qa_slides : list QASlide.t
}.
End Carousel.

(* ====================================================================== *)
(** ** Validation of a payload against the models

    [llm.as_structured_llm(Carousel)] has the completion service answer with
    a JSON value and builds a [Carousel] from it; Pydantic checks the value
    against the class declarations above.  A JSON object is an association
    list in which the first binding of a key is the visible one. *)

#[warnings="-register-all"]
Inductive json : Type :=
  | JNull
  | JBool (b : bool)
  | JInt (z : Z)
  | JStr (s : string)
  | JArr (items : list json)
  | JObj (fields : list (string * json)).

Fixpoint assoc (k : string) (fields : list (string * json)) : option json :=
  match fields with
  | [] => None
  | (k', v) :: rest => if String.eqb k' k then Some v else assoc k rest
  end.

(** The value of key [k] in [j]; nothing when [j] is not an object. *)
Definition get_field (k : string) (j : json) : option json :=
  match j with
  | JObj fields => assoc k fields
  | _ => None
  end.

Declare Scope exn_scope.
Delimit Scope exn_scope with exn.
Notation "x <- m ;; k" :=
  (match m with inl e => inl e | inr x => k end)
  (at level 100, m at next level, right associativity) : exn_scope.

(** A field without a default is required. *)
Definition required {A} (k : string) (conv : json -> Exn + A) (j : json)
  : Exn + A :=
  match get_field k j with
  | None => inl ValidationError
  | Some v => conv v
  end.

(** [Literal[lit]]: the value must be the string [lit]. *)
Definition validate_Literal {A} (lit : string) (a : A) (j : json) : Exn + A :=
  match j with
  | JStr s => if String.eqb s lit then inr a else inl ValidationError
  | _ => inl ValidationError
  end.

(** [List[X]]: a JSON array whose items all validate, in order; the empty
    array is a list. *)
Fixpoint validate_items {A} (conv : json -> Exn + A) (items : list json)
  : Exn + list A :=
  match items with
  | [] => inr []
  | j :: rest =>
      (x <- conv j ;;
       xs <- validate_items conv rest ;;
       inr (x :: xs))%exn
  end.

Definition validate_List {A} (conv : json -> Exn + A) (j : json)
  : Exn + list A :=
  match j with
  | JArr items => validate_items conv items
  | _ => inl ValidationError
  end.

Section Validation.

(** Pydantic's conversion of a JSON value to a field of type [int] and to
    one of type [str].  Which values other than integers and strings they
    accept depends on the library's version and mode; the validators are
    stated for any. *)
Variable to_int : json -> option Z.
Variable to_str : json -> option string.

Local Open Scope exn_scope.

Definition validate_int (j : json) : Exn + Z :=
  match to_int j with Some z => inr z | None => inl ValidationError end.

Definition validate_str (j : json) : Exn + string :=
  match to_str j with Some s => inr s | None => inl ValidationError end.

Definition CoverSlide_validate (j : json) : Exn + CoverSlide.t :=
  slide_number <- required "slide_number" validate_int j ;;
  type <- required "type" (validate_Literal "cover" LitCover) j ;;
  title <- required "title" validate_str j ;;
  subtitle <- required "subtitle" validate_str j ;;
  inr (CoverSlide.mk slide_number type title subtitle).

Definition QASlide_validate (j : json) : Exn + QASlide.t :=
  slide_number <- required "slide_number" validate_int j ;;
  type <- required "type" (validate_Literal "qa" LitQa) j ;;
  question <- required "question" validate_str j ;;
  answer <- required "answer" validate_str j ;;
  inr (QASlide.mk slide_number type question answer).

Definition Carousel_validate (j : json) : Exn + Carousel.t :=
  cover <- required "cover" CoverSlide_validate j ;;
  qa_slides <- required "qa_slides" (validate_List QASlide_validate) j ;;
  inr (Carousel.mk cover qa_slides).

End Validation.

(** The conversions restricted to what every version accepts: a JSON integer
    for [int], a JSON string for [str]. *)
Definition int_of_JInt (j : json) : option Z :=
  match j with JInt z => Some z | _ => None end.

Definition str_of_JStr (j : json) : option string :=
  match j with JStr s => Some s | _ => None end.

(* ====================================================================== *)
(** ** The python-pptx object model, as far as [build_pptx] uses it *)

(** Lengths are English Metric Units, as in [pptx.util]: [Inches] and [Pt]
    return an [int] number of EMU.  [Inches(x)] is [int(x * 914400)], with
    [int] truncating towards zero.  The product is taken here on
    rationals; it is the float product wherever that one is exact, as it is
    for the literal [11.25], the rational [45/4], the only argument in
    [app.py]. *)
Definition Inches (inches : Q) : Z :=
  Z.quot (Qnum inches * 914400) (Zpos (Qden inches)).

Definition Pt (points : Z) : Z := points * 12700.

Record RGBColor : Type := mkRGBColor { red : Z; green : Z; blue : Z }.

Inductive MSO_VERTICAL_ANCHOR : Type := TOP | MIDDLE | BOTTOM.
Inductive PP_ALIGN : Type := LEFT | CENTER | RIGHT | JUSTIFY.

(** A fill: inherited (nothing set), explicitly none, or solid with a
    foreground colour once one is assigned. *)
Inductive FillFormat : Type :=
  | FillInherited
  | FillNone
  | FillSolid (fore_color : option RGBColor).

Record Font : Type := mkFont {
  font_name : option string;
  font_size : option Z;
  font_bold : option bool;
  font_color : option RGBColor
}.

(** What a paragraph holds: runs of text and line breaks. *)
Inductive TextElement : Type :=
  | TextRun (t : string)
  | LineBreak.

Record Paragraph : Type := mkParagraph {
  para_font : Font;
  para_alignment : option PP_ALIGN;
  para_content : list TextElement
}.

Record TextFrame : Type := mkTextFrame {
  tf_paragraphs : list Paragraph;
  tf_vertical_anchor : option MSO_VERTICAL_ANCHOR;
  tf_margin_left : Z;
  tf_margin_right : Z;
  tf_margin_top : Z;
  tf_margin_bottom : Z
}.

Inductive PP_PLACEHOLDER : Type :=
  | PH_TITLE | PH_CENTER_TITLE | PH_SUBTITLE | PH_BODY | PH_OBJECT
  | PH_PICTURE | PH_DATE | PH_FOOTER | PH_SLIDE_NUMBER.

(** A placeholder shape on a slide. *)
Record Shape : Type := mkShape {
  ph_idx : nat;
  ph_type : PP_PLACEHOLDER;
  sh_text_frame : TextFrame
}.

Record Slide : Type := mkSlide {
  sl_background : FillFormat;
  sl_shapes : list Shape
}.

Record SlideLayout : Type := mkSlideLayout {
  layout_name : string;
  layout_placeholders : list (nat * PP_PLACEHOLDER)
}.

Record Presentation : Type := mkPresentation {
  slide_width : Z;
  slide_height : Z;
  slide_layouts : list SlideLayout;
  slides : list Slide
}.

(** The layouts of the default template that [Presentation()] opens.  Every
    layout also carries date, footer and slide-number placeholders (idx 10,
    11, 12), which [add_slide] does not copy onto a new slide. *)
Definition footer_placeholders : list (nat * PP_PLACEHOLDER) :=
  [(10%nat, PH_DATE); (11%nat, PH_FOOTER); (12%nat, PH_SLIDE_NUMBER)].

Definition default_layouts : list SlideLayout :=
  [ mkSlideLayout "Title Slide"
      ([(0%nat, PH_CENTER_TITLE); (1%nat, PH_SUBTITLE)] ++ footer_placeholders);
    mkSlideLayout "Title and Content"
      ([(0%nat, PH_TITLE); (1%nat, PH_OBJECT)] ++ footer_placeholders);
    mkSlideLayout "Section Header"
      ([(0%nat, PH_TITLE); (1%nat, PH_BODY)] ++ footer_placeholders);
    mkSlideLayout "Two Content"
      ([(0%nat, PH_TITLE); (1%nat, PH_OBJECT); (2%nat, PH_OBJECT)]
         ++ footer_placeholders);
    mkSlideLayout "Comparison"
      ([(0%nat, PH_TITLE); (1%nat, PH_BODY); (2%nat, PH_OBJECT);
        (3%nat, PH_BODY); (4%nat, PH_OBJECT)] ++ footer_placeholders);
    mkSlideLayout "Title Only"
      ([(0%nat, PH_TITLE)] ++ footer_placeholders);
    mkSlideLayout "Blank" footer_placeholders;
    mkSlideLayout "Content with Caption"
      ([(0%nat, PH_TITLE); (1%nat, PH_OBJECT); (2%nat, PH_BODY)]
         ++ footer_placeholders);
    mkSlideLayout "Picture with Caption"
      ([(0%nat, PH_TITLE); (1%nat, PH_PICTURE); (2%nat, PH_BODY)]
         ++ footer_placeholders);
    mkSlideLayout "Title and Vertical Text"
      ([(0%nat, PH_TITLE); (1%nat, PH_BODY)] ++ footer_placeholders);
    mkSlideLayout "Vertical Title and Text"
      ([(0%nat, PH_TITLE); (1%nat, PH_BODY)] ++ footer_placeholders) ].

(** [Presentation()]: the default template is a 4:3 deck of 10 in by 7.5 in
    with no slide. *)
Definition Presentation_new : Presentation :=
  mkPresentation 9144000 6858000 default_layouts [].

(** A paragraph, a text frame and a slide as python-pptx creates them:
    nothing set, the text-frame insets at their defaults of 0.1 in left and
    right and 0.05 in top and bottom. *)
Definition empty_font : Font := mkFont None None None None.
Definition empty_paragraph : Paragraph := mkParagraph empty_font None [].
Definition new_text_frame : TextFrame :=
  mkTextFrame [empty_paragraph] None 91440 91440 45720 45720.

Definition cloneable (p : nat * PP_PLACEHOLDER) : bool :=
  match p.2 with
  | PH_DATE | PH_FOOTER | PH_SLIDE_NUMBER => false
  | _ => true
  end.

Definition clone_placeholder (p : nat * PP_PLACEHOLDER) : Shape :=
  mkShape p.1 p.2 new_text_frame.

Definition new_slide (layout : SlideLayout) : Slide :=
  mkSlide FillInherited
    (map clone_placeholder (List.filter cloneable (layout_placeholders layout))).

(* ====================================================================== *)
(** ** The rendering monad

    [build_pptx] works on one presentation object, [prs], through references
    it keeps in local variables ([slide], [title_tf], [q_tf], ...).  The
    state of the monad is that presentation; a reference is the path of the
    object inside it.  A computation either raises or returns a value and
    the presentation as it has mutated it. *)

Definition M (A : Type) : Type := Presentation -> Exn + (A * Presentation).

Definition ret {A} (a : A) : M A := fun prs => inr (a, prs).

Definition bind {A B} (m : M A) (k : A -> M B) : M B :=
  fun prs =>
    match m prs with
    | inl e => inl e
    | inr (a, prs') => k a prs'
    end.

Definition raise {A} (e : Exn) : M A := fun _ => inl e.

Declare Scope pptx_scope.
Delimit Scope pptx_scope with pptx.
Notation "x <- m ;; k" := (bind m (fun x => k))
  (at level 100, m at next level, right associativity) : pptx_scope.
Notation "m ;; k" := (bind m (fun _ => k))
  (at level 100, right associativity) : pptx_scope.
Local Open Scope pptx_scope.

(** [for x in l: body(x)] *)
Fixpoint for_each {A} (l : list A) (body : A -> M unit) : M unit :=
  match l with
  | [] => ret tt
  | x :: l' => body x ;; for_each l' body
  end.

(** References: a slide by its position in [prs.slides], a shape (and its
    text frame) by its slide and its position among the slide's shapes, a
    paragraph by its text frame and its position in it. *)
Definition SlideRef : Type := nat.
Definition ShapeRef : Type := (SlideRef * nat)%type.
Definition ParaRef : Type := (ShapeRef * nat)%type.

(** Access through a reference: run [f] on the object and write the result
    back in place. *)
Definition on_slide {A} (r : SlideRef) (f : Slide -> Exn + (A * Slide)) : M A :=
  fun prs =>
    match slides prs !! r with
    | None => inl ReferenceError
    | Some s =>
        match f s with
        | inl e => inl e
        | inr (a, s') =>
            inr (a, mkPresentation (slide_width prs) (slide_height prs)
                      (slide_layouts prs) (<[r := s']> (slides prs)))
        end
    end.

Definition on_shape {A} (r : ShapeRef) (f : Shape -> Exn + (A * Shape)) : M A :=
  on_slide r.1 (fun s =>
    match sl_shapes s !! r.2 with
    | None => inl ReferenceError
    | Some sh =>
        match f sh with
        | inl e => inl e
        | inr (a, sh') =>
            inr (a, mkSlide (sl_background s) (<[r.2 := sh']> (sl_shapes s)))
        end
    end).

Definition on_text_frame {A} (r : ShapeRef)
    (f : TextFrame -> Exn + (A * TextFrame)) : M A :=
  on_shape r (fun sh =>
    match f (sh_text_frame sh) with
    | inl e => inl e
    | inr (a, tf) => inr (a, mkShape (ph_idx sh) (ph_type sh) tf)
    end).

Definition on_paragraph {A} (r : ParaRef)
    (f : Paragraph -> Exn + (A * Paragraph)) : M A :=
  on_text_frame r.1 (fun tf =>
    match tf_paragraphs tf !! r.2 with
    | None => inl ReferenceError
    | Some p =>
        match f p with
        | inl e => inl e
        | inr (a, p') =>
            inr (a, mkTextFrame (<[r.2 := p']> (tf_paragraphs tf))
                      (tf_vertical_anchor tf) (tf_margin_left tf)
                      (tf_margin_right tf) (tf_margin_top tf)
                      (tf_margin_bottom tf))
        end
    end).

(** A plain attribute assignment never raises. *)
Definition assign {X} (f : X -> X) : X -> Exn + (unit * X) :=
  fun x => inr (tt, f x).

(** *** Presentation *)

Definition set_slide_width (v : Z) : M unit :=
  fun prs => inr (tt, mkPresentation v (slide_height prs)
                        (slide_layouts prs) (slides prs)).

Definition set_slide_height (v : Z) : M unit :=
  fun prs => inr (tt, mkPresentation (slide_width prs) v
                        (slide_layouts prs) (slides prs)).

(** [prs.slide_layouts[i]] *)
Definition slide_layouts_getitem (i : nat) : M SlideLayout :=
  fun prs =>
    match slide_layouts prs !! i with
    | None => inl IndexError
    | Some l => inr (l, prs)
    end.

(** [prs.slides.add_slide(layout)]: the new slide goes last and gets a copy
    of each cloneable placeholder of the layout. *)
Definition add_slide (layout : SlideLayout) : M SlideRef :=
  fun prs =>
    inr (length (slides prs),
         mkPresentation (slide_width prs) (slide_height prs)
           (slide_layouts prs) (slides prs ++ [new_slide layout])).

(** *** Slide *)

(** Position of the first shape whose placeholder idx is [idx]. *)
Fixpoint find_ph (idx : nat) (l : list Shape) : option nat :=
  match l with
  | [] => None
  | sh :: l' => if Nat.eqb (ph_idx sh) idx then Some O
                else option_map S (find_ph idx l')
  end.

(** [slide.shapes.title]: the placeholder with idx 0, or [None]. *)
Definition shapes_title (slide : SlideRef) : M (option ShapeRef) :=
  on_slide slide (fun s =>
    inr (option_map (fun k => (slide, k)) (find_ph 0 (sl_shapes s)), s)).

(** [slide.placeholders[idx]]: lookup by idx, [KeyError] when absent. *)
Definition placeholders_getitem (slide : SlideRef) (idx : nat) : M ShapeRef :=
  on_slide slide (fun s =>
    match find_ph idx (sl_shapes s) with
    | None => inl KeyError
    | Some k => inr ((slide, k), s)
    end).

(** [x.text_frame] where [x] may be [None]. *)
Definition text_frame (x : option ShapeRef) : M ShapeRef :=
  match x with
  | None => raise AttributeError
  | Some r => ret r
  end.

(** [slide.background.fill]: reading it replaces an inherited background by
    an explicit one with no fill. *)
Definition background_fill (slide : SlideRef) : M SlideRef :=
  on_slide slide (fun s =>
    inr (slide,
         mkSlide (match sl_background s with
                  | FillInherited => FillNone
                  | f => f
                  end) (sl_shapes s))).

(** [fill.solid()]: a fill that is solid already stays as it is. *)
Definition solid (bg : SlideRef) : M unit :=
  on_slide bg (assign (fun s =>
    mkSlide (match sl_background s with
             | FillSolid c => FillSolid c
             | _ => FillSolid None
             end) (sl_shapes s))).

(** [fill.fore_color.rgb = c]: only a solid fill has a foreground colour. *)
Definition set_fore_color_rgb (bg : SlideRef) (c : RGBColor) : M unit :=
  on_slide bg (fun s =>
    match sl_background s with
    | FillSolid _ => inr (tt, mkSlide (FillSolid (Some c)) (sl_shapes s))
    | _ => inl TypeError
    end).

(** *** Text frame and paragraph *)

(** [tf.clear()]: all paragraphs but the first are removed and the first
    loses its runs and line breaks; its properties stay. *)
Definition clear (tf : ShapeRef) : M unit :=
  on_text_frame tf (fun t =>
    match tf_paragraphs t with
    | [] => inl IndexError
    | p :: _ =>
        inr (tt, mkTextFrame [mkParagraph (para_font p) (para_alignment p) []]
                   (tf_vertical_anchor t) (tf_margin_left t)
                   (tf_margin_right t) (tf_margin_top t) (tf_margin_bottom t))
    end).

Definition set_vertical_anchor (tf : ShapeRef) (v : MSO_VERTICAL_ANCHOR) : M unit :=
  on_text_frame tf (assign (fun t =>
    mkTextFrame (tf_paragraphs t) (Some v) (tf_margin_left t)
      (tf_margin_right t) (tf_margin_top t) (tf_margin_bottom t))).

Definition set_margin_left (tf : ShapeRef) (v : Z) : M unit :=
  on_text_frame tf (assign (fun t =>
    mkTextFrame (tf_paragraphs t) (tf_vertical_anchor t) v
      (tf_margin_right t) (tf_margin_top t) (tf_margin_bottom t))).

Definition set_margin_right (tf : ShapeRef) (v : Z) : M unit :=
  on_text_frame tf (assign (fun t =>
    mkTextFrame (tf_paragraphs t) (tf_vertical_anchor t) (tf_margin_left t)
      v (tf_margin_top t) (tf_margin_bottom t))).

Definition set_margin_top (tf : ShapeRef) (v : Z) : M unit :=
  on_text_frame tf (assign (fun t =>
    mkTextFrame (tf_paragraphs t) (tf_vertical_anchor t) (tf_margin_left t)
      (tf_margin_right t) v (tf_margin_bottom t))).

Definition set_margin_bottom (tf : ShapeRef) (v : Z) : M unit :=
  on_text_frame tf (assign (fun t =>
    mkTextFrame (tf_paragraphs t) (tf_vertical_anchor t) (tf_margin_left t)
      (tf_margin_right t) (tf_margin_top t) v)).

(** [tf.paragraphs[i]] *)
Definition paragraphs_getitem (tf : ShapeRef) (i : nat) : M ParaRef :=
  on_text_frame tf (fun t =>
    match tf_paragraphs t !! i with
    | None => inl IndexError
    | Some _ => inr ((tf, i), t)
    end).

Definition on_font (para : ParaRef) (f : Font -> Font) : M unit :=
  on_paragraph para (assign (fun p =>
    mkParagraph (f (para_font p)) (para_alignment p) (para_content p))).

Definition set_font_name (para : ParaRef) (v : string) : M unit :=
  on_font para (fun f =>
    mkFont (Some v) (font_size f) (font_bold f) (font_color f)).

(** [font.size = v], [v] in EMU: the size is kept in hundredths of a point,
    [v // 127], which must lie between 100 and 400000 (1 pt and 4000 pt),
    and is read back in EMU. *)
Definition set_font_size (para : ParaRef) (v : Z) : M unit :=
  on_paragraph para (fun p =>
    let centipoints := v / 127 in
    if ((100 <=? centipoints) && (centipoints <=? 400000))%Z
    then
      let f := para_font p in
      inr (tt, mkParagraph
                 (mkFont (font_name f) (Some (centipoints * 127))
                    (font_bold f) (font_color f))
                 (para_alignment p) (para_content p))
    else inl ValueError).

Definition set_font_bold (para : ParaRef) (v : bool) : M unit :=
  on_font para (fun f =>
    mkFont (font_name f) (font_size f) (Some v) (font_color f)).

Definition set_font_color_rgb (para : ParaRef) (v : RGBColor) : M unit :=
  on_font para (fun f =>
    mkFont (font_name f) (font_size f) (font_bold f) (Some v)).

Definition set_alignment (para : ParaRef) (v : PP_ALIGN) : M unit :=
  on_paragraph para (assign (fun p =>
    mkParagraph (para_font p) (Some v) (para_content p))).

(** *** Text of a paragraph

    A Python [str] is held as the string of its UTF-8 bytes; a lone
    surrogate, which a [str] can hold, as the three bytes that the scheme of
    UTF-8 gives its code point ([ED], then [A0]..[BF], then [80]..[BF]). *)

Definition line_feed : ascii := "010"%char.
Definition vertical_tab : ascii := "011"%char.

(** The characters at which an assigned text is cut into runs. *)
Definition is_break (c : ascii) : bool :=
  Ascii.eqb c line_feed || Ascii.eqb c vertical_tab.

(** The control characters that a run writes out as [_xHHHH_]: those below
    U+0020 other than the tab and the line feed. *)
Definition is_escaped (c : ascii) : bool :=
  let n := nat_of_ascii c in
  ((n <=? 8) || (11 <=? n) && (n <=? 31))%nat.

Definition hex_digit (n : nat) : ascii :=
  match String.get n "0123456789ABCDEF" with
  | Some d => d
  | None => "0"%char
  end.

(** ["_x%04X_" % ord(c)] for a character below U+0100. *)
Definition escape_char (c : ascii) : string :=
  let n := nat_of_ascii c in
  "_x00" +:+ String (hex_digit (n / 16)) (String (hex_digit (n mod 16)) "_").

Fixpoint escape (s : string) : string :=
  match s with
  | EmptyString => EmptyString
  | String c s' =>
      if is_escaped c then escape_char c +:+ escape s'
      else String c (escape s')
  end.

(** [re.split("
|", s)]: the piece before the first break, and the pieces
    after each break. *)
Fixpoint split_breaks (s : string) : string * list string :=
  match s with
  | EmptyString => (EmptyString, [])
  | String c s' =>
      let '(first, rest) := split_breaks s' in
      if is_break c then (EmptyString, first :: rest)
      else (String c first, rest)
  end.

(** A piece becomes a run, unless it is empty. *)
Definition run_of (piece : string) : list TextElement :=
  match piece with
  | EmptyString => []
  | _ => [TextRun (escape piece)]
  end.

(** The runs and line breaks that a text is written as: a break between
    two pieces, a run for each piece that is not empty. *)
Definition text_elements (text : string) : list TextElement :=
  let '(first, rest) := split_breaks text in
  (run_of first ++ flat_map (fun piece => LineBreak :: run_of piece) rest)%list.

(** The text that is read back from runs and line breaks: a line break
    reads as a vertical tab. *)
Fixpoint elements_text (l : list TextElement) : string :=
  match l with
  | [] => EmptyString
  | TextRun t :: l' => t +:+ elements_text l'
  | LineBreak :: l' => String vertical_tab (elements_text l')
  end.

(** [paragraph.text], read. *)
Definition paragraph_text (p : Paragraph) : string :=
  elements_text (para_content p).

(** Whether [s] starts with the bytes of U+FFFE or U+FFFF ([EF BF BE],
    [EF BF BF]) or of a surrogate ([ED] and a byte from [A0] on). *)
Definition starts_forbidden (s : string) : bool :=
  match s with
  | String a (String b rest) =>
      let na := nat_of_ascii a in
      let nb := nat_of_ascii b in
      ((na =? 237) && (160 <=? nb)
       || (na =? 239) && (nb =? 191)
          && match rest with
             | String c _ =>
                 (nat_of_ascii c =? 190) || (nat_of_ascii c =? 191)
             | EmptyString => false
             end)%nat
  | _ => false
  end.

(** The texts that lxml takes: those without U+FFFE, U+FFFF and
    surrogates.  (It takes no control character either, but a run has
    escaped those by then.) *)
Fixpoint xml_compatible (s : string) : bool :=
  match s with
  | EmptyString => true
  | String c s' => negb (starts_forbidden s) && xml_compatible s'
  end.

(** [para.text = v]: what the paragraph held is dropped and [v] is written
    as runs and line breaks; a [v] that lxml does not take raises.  Cutting
    [v] into runs and escaping control characters neither makes nor removes
    a forbidden character, so the test is made on [v] as a whole. *)
Definition set_text (para : ParaRef) (v : string) : M unit :=
  on_paragraph para (fun p =>
    if xml_compatible v
    then inr (tt, mkParagraph (para_font p) (para_alignment p)
                    (text_elements v))
    else inl ValueError).

(** *** The in-memory file

    [prs.save(buf)] writes the package into the buffer and leaves the
    position at its end; [buf.seek(0)] rewinds.  The bytes are modelled by
    the presentation they serialise. *)
Record BytesIO : Type := mkBytesIO {
  getvalue : option Presentation;
  at_start : bool
}.

Definition BytesIO_new : BytesIO := mkBytesIO None true.

Definition save (buf : BytesIO) : M BytesIO :=
  fun prs => inr (mkBytesIO (Some prs) false, prs).

Definition seek0 (buf : BytesIO) : BytesIO := mkBytesIO (getvalue buf) true.

(* ====================================================================== *)
(** ** PPTX helpers (app.py, lines 70-127) *)

Definition _black_bg (slide : SlideRef) : M unit :=
  bg <- background_fill slide ;;
  solid bg ;;
  set_fore_color_rgb bg (mkRGBColor 0 0 0).

(** [bold] defaults to [False] at the call sites that omit it. *)
Definition _style_para (para : ParaRef) (font_size : Z) (bold : bool) : M unit :=
  set_font_name para "Calibri" ;;
  set_font_size para (Pt font_size) ;;
  set_font_bold para bold ;;
  set_font_color_rgb para (mkRGBColor 255 255 255) ;;
  set_alignment para LEFT.

(** The four assignments of [tf.margin_left = tf.margin_right =
    tf.margin_top = tf.margin_bottom = 0], left to right. *)
Definition set_margins (tf : ShapeRef) (v : Z) : M unit :=
  set_margin_left tf v ;;
  set_margin_right tf v ;;
  set_margin_top tf v ;;
  set_margin_bottom tf v.

(** The body of the loop [for qa in carousel.qa_slides]. *)
Definition qa_body (qa : QASlide.t) : M unit :=
  layout <- slide_layouts_getitem 1 ;;
  slide <- add_slide layout ;;
  _black_bg slide ;;

  q_tf <- (t <- shapes_title slide ;; text_frame t) ;;
  clear q_tf ;; set_vertical_anchor q_tf TOP ;;
  set_margins q_tf 0 ;;
  p <- paragraphs_getitem q_tf 0 ;;
  _style_para p 40 true ;;
  p <- paragraphs_getitem q_tf 0 ;;
  set_text p (QASlide.question qa) ;;

  a_tf <- (ph <- placeholders_getitem slide 1 ;; text_frame (Some ph)) ;;
  clear a_tf ;; set_vertical_anchor a_tf TOP ;;
  set_margins a_tf 0 ;;
  p <- paragraphs_getitem a_tf 0 ;;
  _style_para p 30 false ;;
  p <- paragraphs_getitem a_tf 0 ;;
  set_text p (QASlide.answer qa).

(** The statements of [build_pptx] that work on [prs]. *)
Definition render (carousel : Carousel.t) : M BytesIO :=
  set_slide_width (Inches (45 # 4)) ;;
  set_slide_height (Inches (45 # 4)) ;;

  (* Cover slide *)
  let cover := Carousel.cover carousel in
  layout <- slide_layouts_getitem 0 ;;
  slide <- add_slide layout ;;
  _black_bg slide ;;

  title_tf <- (t <- shapes_title slide ;; text_frame t) ;;
  clear title_tf ;; set_vertical_anchor title_tf TOP ;;
  set_margins title_tf 0 ;;
  p <- paragraphs_getitem title_tf 0 ;;
  _style_para p 54 true ;;
  p <- paragraphs_getitem title_tf 0 ;;
  set_text p (CoverSlide.title cover) ;;

  subt_tf <- (ph <- placeholders_getitem slide 1 ;; text_frame (Some ph)) ;;
  clear subt_tf ;; set_vertical_anchor subt_tf TOP ;;
  set_margins subt_tf 0 ;;
  p <- paragraphs_getitem subt_tf 0 ;;
  _style_para p 34 false ;;
  p <- paragraphs_getitem subt_tf 0 ;;
  set_text p (CoverSlide.subtitle cover) ;;

  (* QA slides *)
  for_each (Carousel.qa_slides carousel) qa_body ;;

  buf <- save BytesIO_new ;;
  ret (seek0 buf).

(** [build_pptx(carousel)]: [prs = Presentation()], then the statements
    above; the result is the buffer, or the exception that escaped. *)
Definition build_pptx (carousel : Carousel.t) : Exn + BytesIO :=
  match render carousel Presentation_new with
  | inl e => inl e
  | inr (buf, _) => inr buf
  end.

(* ====================================================================== *)
(** ** The prompt (app.py, line 63) *)

(** [PROMPT_TMPL.format(topic=topic)]: the template has two [{topic}]
    fields, so the result is its three pieces with [topic] in between.  A
    Python [str] is held as the string of its UTF-8 bytes. *)
Definition PROMPT_TMPL_1 : string :=
  "You are an expert content strategist.

Topic: ".

Definition PROMPT_TMPL_2 : string :=
  "

Task:
1. Write an inspiring one‑liner subtitle for the cover slide.
2. Then identify between 5 and 8 key questions someone would ask about this topic.
3. For each question, provide a concise (2‑3 line) answer.

Format your reply exactly as:

Topic: ".

Definition PROMPT_TMPL_3 : string :=
  "
Subtitle: <your one‑liner>

Questions & Answers:
1. Question: <question 1>
   Answer: <answer 1>

2. Question: <question 2>
   Answer: <answer 2>
…".

Definition PROMPT_TMPL_format (topic : string) : string :=
  PROMPT_TMPL_1 +:+ topic +:+ PROMPT_TMPL_2 +:+ topic +:+ PROMPT_TMPL_3.

(* ====================================================================== *)
(** ** The submit handler (app.py, lines 145-175) *)

(** [s.replace(old, new)] for one-character [old] and [new]: every
    occurrence is replaced.  On UTF-8 bytes this is the replacement on code
    points when both are ASCII, as no byte of a longer sequence is below
    128. *)
Fixpoint replace (old new : ascii) (s : string) : string :=
  match s with
  | EmptyString => EmptyString
  | String c s' => String (if Ascii.eqb c old then new else c) (replace old new s')
  end.

(** [f"LinkedIn_Carousel_{topic.replace(' ', '_')}.pptx"] *)
Definition file_name (topic : string) : string :=
  "LinkedIn_Carousel_" +:+ replace " " "_" topic +:+ ".pptx".

(** Truth value of a [str]: false exactly for the empty string. *)
Definition truthy (s : string) : bool :=
  match s with
  | EmptyString => false
  | String _ _ => true
  end.

(** What a run of the handler does that can be seen from outside: the
    Streamlit calls, the change of the process environment, and the calls
    to the completion service. *)
Inductive Event : Type :=
  | st_error (body : string)
  | st_spinner (text : string)
  | st_success (body : string)
  | st_download_button (label : string) (data : BytesIO)
                       (file_name mime : string)
  | load_dotenv
  | environ_set (key value : string)
  | llm_complete (model api_key prompt : string)
  | sllm_complete (model api_key text : string).

(** How a run ends: [st.stop()], an uncaught exception, or the end of the
    block. *)
Inductive Ending : Type :=
  | Stopped
  | Raised (e : Exn)
  | Completed.

Record Run : Type := mkRun { events : list Event; ending : Ending }.

(** A step of the script: the events it emits, and either the way the run
    ended in it or its value. *)
Definition UI (A : Type) : Type := (list Event * (Ending + A))%type.

Definition ui_ret {A} (a : A) : UI A := ([], inr a).

Definition ui_bind {A B} (m : UI A) (k : A -> UI B) : UI B :=
  match m with
  | (ev, inl end_) => (ev, inl end_)
  | (ev, inr a) => let '(ev', r) := k a in ((ev ++ ev')%list, r)
  end.

Definition emit (e : Event) : UI unit := ([e], inr tt).

(** [st.stop()] *)
Definition st_stop {A} : UI A := ([], inl Stopped).

(** A call that returns or raises. *)
Definition try {A} (r : Exn + A) : UI A :=
  match r with
  | inl e => ([], inl (Raised e))
  | inr a => ([], inr a)
  end.

Definition run_ui (m : UI unit) : Run :=
  match m with
  | (ev, inl end_) => mkRun ev end_
  | (ev, inr _) => mkRun ev Completed
  end.

Declare Scope ui_scope.
Delimit Scope ui_scope with ui.
Notation "x <- m ;; k" := (ui_bind m (fun x => k))
  (at level 100, m at next level, right associativity) : ui_scope.
Notation "m ;; k" := (ui_bind m (fun _ => k))
  (at level 100, right associativity) : ui_scope.

(** What [sllm.complete] returns: not the carousel but a
    [CompletionResponse] that holds it in [raw], beside its JSON text. *)
Record CompletionResponse : Type := mkCompletionResponse {
  response_text : string;
  raw : Carousel.t
}.

(** The values that [build_pptx] is called on. *)
Inductive Object : Type :=
  | a_Carousel (c : Carousel.t)
  | a_CompletionResponse (r : CompletionResponse).

(** [build_pptx(x)] for a value of either class.  The annotation
    [carousel: Carousel] is not checked at the call; the first use of the
    argument is [carousel.cover] (line 91), after the presentation has been
    created and sized, and a [CompletionResponse] has no such attribute. *)
Definition build_pptx_call (carousel : Object) : Exn + BytesIO :=
  match carousel with
  | a_Carousel c => build_pptx c
  | a_CompletionResponse _ => inl AttributeError
  end.

Section Submit.

(** The completion service: what [llm.complete(prompt).text] and
    [sllm.complete(text)] return for a model, a key and a prompt or text.
    Either may raise; a reply that does not fit the [Carousel] class is one
    of the ways in which the second does. *)
Variable complete_text : string -> string -> string -> Exn + string.
Variable structured_response :
  string -> string -> string -> Exn + CompletionResponse.

Definition model_id : string := "llama-3.3-70b-versatile".

Definition pptx_mime : string :=
  "application/vnd.openxmlformats-officedocument.presentationml.presentation".

(** The body of [if submit:]. *)
Definition submit (topic api_key : string) : UI unit :=
  ((if negb (truthy topic)
    then emit (st_error "Please enter a topic.") ;; st_stop
    else ui_ret tt) ;;
   (if negb (truthy api_key)
    then emit (st_error "Please enter your Groq API key.") ;; st_stop
    else ui_ret tt) ;;

   emit load_dotenv ;;
   emit (environ_set "GROQ_API_KEY" api_key) ;;

   emit (st_spinner "Contacting Groq, generating content…") ;;
   let prompt := PROMPT_TMPL_format topic in
   emit (llm_complete model_id api_key prompt) ;;
   raw_response <- try (complete_text model_id api_key prompt) ;;
   emit (sllm_complete model_id api_key raw_response) ;;
   carousel <- try (structured_response model_id api_key raw_response) ;;

   emit (st_spinner "Rendering PPTX…") ;;
   ppt_buf <- try (build_pptx_call (a_CompletionResponse carousel)) ;;
   let file_name := file_name topic in

   emit (st_success "Done! Download your deck below.") ;;
   emit (st_download_button "⬇️ Download PPTX" ppt_buf file_name pptx_mime))%ui.

Definition on_submit (topic api_key : string) : Run :=
  run_ui (submit topic api_key).

End Submit.

(** An outbound call to the completion service. *)
Definition is_outbound_call (e : Event) : bool :=
  match e with
  | llm_complete _ _ _ | sllm_complete _ _ _ => true
  | _ => false
  end.

(** The event that hands a document to the caller. *)
Definition is_document (e : Event) : bool :=
  match e with
  | st_download_button _ _ _ _ => true
  | _ => false
  end.

(* ====================================================================== *)
(** ** What is read off a rendered deck *)

Definition white : RGBColor := mkRGBColor 255 255 255.
Definition black : RGBColor := mkRGBColor 0 0 0.

Definition newline : string := String "010" EmptyString.

(** [text_frame.text]: the paragraphs' texts, joined by a line feed. *)
Definition frame_text (tf : TextFrame) : string :=
  String.concat newline (map paragraph_text (tf_paragraphs tf)).

(** The texts of the text regions of a slide, in shape order. *)
Definition text_regions (s : Slide) : list string :=
  map (fun sh => frame_text (sh_text_frame sh)) (sl_shapes s).

(** Size and weight of each paragraph of each text region of a slide. *)
Definition region_fonts (s : Slide) : list (list (option Z * option bool)) :=
  map (fun sh =>
         map (fun p => (font_size (para_font p), font_bold (para_font p)))
             (tf_paragraphs (sh_text_frame sh)))
      (sl_shapes s).

(** The theme: white, left-aligned paragraphs; frames anchored at the top
    with no inset; a solid black background. *)
Definition themed_paragraph (p : Paragraph) : Prop :=
  font_color (para_font p) = Some white /\ para_alignment p = Some LEFT.

Definition themed_frame (tf : TextFrame) : Prop :=
  tf_vertical_anchor tf = Some TOP /\
  tf_margin_left tf = 0 /\ tf_margin_right tf = 0 /\
  tf_margin_top tf = 0 /\ tf_margin_bottom tf = 0 /\
  tf_paragraphs tf <> [] /\
  Forall themed_paragraph (tf_paragraphs tf).

Definition themed_slide (s : Slide) : Prop :=
  sl_background s = FillSolid (Some black) /\
  Forall (fun sh => themed_frame (sh_text_frame sh)) (sl_shapes s).

(** [build_pptx] returns a rewound buffer that holds [prs]. *)
Definition renders_to (carousel : Carousel.t) (prs : Presentation) : Prop :=
  build_pptx carousel = inr (mkBytesIO (Some prs) true).

(** Two carousels that differ at most in the [slide_number] of their
    records. *)
Definition same_cover (c1 c2 : CoverSlide.t) : Prop :=
  CoverSlide.type c1 = CoverSlide.type c2 /\
  CoverSlide.title c1 = CoverSlide.title c2 /\
  CoverSlide.subtitle c1 = CoverSlide.subtitle c2.

Definition same_qa (q1 q2 : QASlide.t) : Prop :=
  QASlide.type q1 = QASlide.type q2 /\
  QASlide.question q1 = QASlide.question q2 /\
  QASlide.answer q1 = QASlide.answer q2.

Definition differ_only_in_position (c1 c2 : Carousel.t) : Prop :=
  same_cover (Carousel.cover c1) (Carousel.cover c2) /\
  Forall2 same_qa (Carousel.qa_slides c1) (Carousel.qa_slides c2).

(** The text that is read back from a paragraph to which [v] was
    assigned. *)
Definition rendered_text (v : string) : string :=
  elements_text (text_elements v).

(** A carousel all of whose texts lxml takes. *)
Definition qa_renderable (qa : QASlide.t) : bool :=
  xml_compatible (QASlide.question qa) && xml_compatible (QASlide.answer qa).

Definition renderable (c : Carousel.t) : bool :=
  xml_compatible (CoverSlide.title (Carousel.cover c))
  && xml_compatible (CoverSlide.subtitle (Carousel.cover c))
  && forallb qa_renderable (Carousel.qa_slides c).

(** Plain text: no control character but the tab (so no line feed, no
    vertical tab, nothing that is escaped, and no DEL), and nothing that
    lxml does not take. *)
Definition plain_char (c : ascii) : bool :=
  let n := nat_of_ascii c in
  ((n =? 9) || (32 <=? n) && negb (n =? 127))%nat.

Fixpoint all_chars (f : ascii -> bool) (s : string) : bool :=
  match s with
  | EmptyString => true
  | String c s' => f c && all_chars f s'
  end.

Definition plain_text (s : string) : bool :=
  all_chars plain_char s && xml_compatible s.

Definition plain_qa (qa : QASlide.t) : bool :=
  plain_text (QASlide.question qa) && plain_text (QASlide.answer qa).

Definition plain_carousel (c : Carousel.t) : bool :=
  plain_text (CoverSlide.title (Carousel.cover c))
  && plain_text (CoverSlide.subtitle (Carousel.cover c))
  && forallb plain_qa (Carousel.qa_slides c).

(* ====================================================================== *)
(** ** The renderer, step by step *)

(** A text frame after [clear], the anchor, the margins, [_style_para] and
    the text. *)
Definition styled_frame (points : Z) (bold : bool) (text : string) : TextFrame :=
  mkTextFrame
    [mkParagraph
       (mkFont (Some "Calibri") (Some (Pt points)) (Some bold) (Some white))
       (Some LEFT) (text_elements text)]
    (Some TOP) 0 0 0 0.

Definition cover_slide (cover : CoverSlide.t) : Slide :=
  mkSlide (FillSolid (Some black))
    [mkShape 0 PH_CENTER_TITLE (styled_frame 54 true (CoverSlide.title cover));
     mkShape 1 PH_SUBTITLE (styled_frame 34 false (CoverSlide.subtitle cover))].

Definition qa_slide (qa : QASlide.t) : Slide :=
  mkSlide (FillSolid (Some black))
    [mkShape 0 PH_TITLE (styled_frame 40 true (QASlide.question qa));
     mkShape 1 PH_OBJECT (styled_frame 30 false (QASlide.answer qa))].

Definition deck (carousel : Carousel.t) : Presentation :=
  mkPresentation (Inches (45 # 4)) (Inches (45 # 4)) default_layouts
    (cover_slide (Carousel.cover carousel)
       :: map qa_slide (Carousel.qa_slides carousel)).

(* ====================================================================== *)
(** ** Payloads, by what is wrong with them *)






(** A validator that raises nothing but [ValidationError]. *)
Definition only_ValidationError {A} (conv : json -> Exn + A) : Prop :=
  forall j e, conv j = inl e -> e = ValidationError.

(** Positions as the data model words them: 1 on the cover, then 2, 3, ...
    on the question/answer records. *)
Definition positions_sequential (c : Carousel.t) : Prop :=
  CoverSlide.slide_number (Carousel.cover c) = 1 /\
  map QASlide.slide_number (Carousel.qa_slides c)
  = seqZ 2 (Z.of_nat (length (Carousel.qa_slides c))).

(** The position that a payload record carries, as the validator reads it. *)
Definition payload_position (to_int : json -> option Z) (j : json) (z : Z)
  : Prop :=
  exists v, get_field "slide_number" j = Some v /\ to_int v = Some z.

(** ASCII letters and digits. *)
Definition is_alnum (c : ascii) : bool :=
  let n := nat_of_ascii c in
  ((48 <=? n) && (n <=? 57) || (65 <=? n) && (n <=? 90)
   || (97 <=? n) && (n <=? 122))%nat.

(** Where the topic starts in the file name. *)
Definition topic_offset : nat := String.length "LinkedIn_Carousel_".

(** Every character of the topic that is not a letter or a digit is gone
    from its place in the file name. *)
Definition non_alnum_replaced (topic : string) : Prop :=
  forall i c, String.get i topic = Some c -> is_alnum c = false ->
              String.get (topic_offset + i) (file_name topic) <> Some c.

(** *** Sample data *)

Definition json_cover (n : Z) (tag title subtitle : string) : json :=
  JObj [("slide_number", JInt n); ("type", JStr tag);
        ("title", JStr title); ("subtitle", JStr subtitle)].

Definition json_qa (n : Z) (tag question answer : string) : json :=
  JObj [("slide_number", JInt n); ("type", JStr tag);
        ("question", JStr question); ("answer", JStr answer)].

Definition json_carousel (cover : json) (qa_slides : list json) : json :=
  JObj [("cover", cover); ("qa_slides", JArr qa_slides)].

Definition game_theory_cover : CoverSlide.t :=
  CoverSlide.mk 1 LitCover "Game Theory" "Outsmart, don't outspend".

Definition nash_qa (n : Z) : QASlide.t :=
  QASlide.mk n LitQa "What is a Nash equilibrium?"
    "A state where no player benefits from changing strategy alone.".

Definition zero_sum_qa (n : Z) : QASlide.t :=
  QASlide.mk n LitQa "What is a zero-sum game?"
    "A game in which one player's gain is another player's loss.".



(** Two pairs numbered 7 and 3. *)
Definition payload_unordered : json :=
  json_carousel (json_cover 1 "cover" "Game Theory" "Outsmart, don't outspend")
    [json_qa 7 "qa" "What is a Nash equilibrium?"
       "A state where no player benefits from changing strategy alone.";
     json_qa 3 "qa" "What is a zero-sum game?"
       "A game in which one player's gain is another player's loss."].

Definition carousel_unordered : Carousel.t :=
  Carousel.mk game_theory_cover [nash_qa 7; zero_sum_qa 3].

Definition carousel_ordered : Carousel.t :=
  Carousel.mk game_theory_cover [nash_qa 2; zero_sum_qa 3].


(** A completion service that answers every prompt with the same text and
    every structured call with the same response. *)
Definition const_text (text : string) : string -> string -> string -> Exn + string :=
  fun _ _ _ => inr text.

Definition const_response (r : CompletionResponse)
  : string -> string -> string -> Exn + CompletionResponse :=
  fun _ _ _ => inr r.

Definition response_unordered : CompletionResponse :=
  mkCompletionResponse "{}" carousel_unordered.

(** U+FFFE and U+FFFF, in UTF-8. *)
Definition U_FFFE : string :=
  String "239" (String "191" (String "190" EmptyString)).

Definition U_FFFF : string :=
  String "239" (String "191" (String "191" EmptyString)).

(** A carousel whose title is U+FFFE, one whose only slide has U+FFFF for
    a subtitle, and one whose title runs over two lines. *)
Definition carousel_FFFE_title : Carousel.t :=
  Carousel.mk (CoverSlide.mk 1 LitCover U_FFFE "Outsmart, don't outspend")
    [nash_qa 2].

Definition carousel_FFFF_subtitle : Carousel.t :=
  Carousel.mk (CoverSlide.mk 1 LitCover "Game Theory" U_FFFF) [].

Definition two_lines : string := "Game" +:+ String line_feed "Theory".

Definition carousel_two_lines : Carousel.t :=
  Carousel.mk (CoverSlide.mk 1 LitCover two_lines "Outsmart, don't outspend")
    [].

(* ====================================================================== *)
(** ** Reading and replacing through a reference *)

Definition get_slide (prs : Presentation) (r : SlideRef) : option Slide :=
  slides prs !! r.

Definition get_shape (prs : Presentation) (r : ShapeRef) : option Shape :=
  match get_slide prs r.1 with
  | Some s => sl_shapes s !! r.2
  | None => None
  end.

Definition get_paragraph (prs : Presentation) (r : ParaRef) : option Paragraph :=
  match get_shape prs r.1 with
  | Some sh => tf_paragraphs (sh_text_frame sh) !! r.2
  | None => None
  end.

Definition with_paragraph (tf : TextFrame) (i : nat) (p : Paragraph) : TextFrame :=
  mkTextFrame (<[i := p]> (tf_paragraphs tf)) (tf_vertical_anchor tf)
    (tf_margin_left tf) (tf_margin_right tf) (tf_margin_top tf)
    (tf_margin_bottom tf).

Definition with_text_frame (sh : Shape) (tf : TextFrame) : Shape :=
  mkShape (ph_idx sh) (ph_type sh) tf.

Definition with_shape (s : Slide) (k : nat) (sh : Shape) : Slide :=
  mkSlide (sl_background s) (<[k := sh]> (sl_shapes s)).

Definition with_slide (prs : Presentation) (r : SlideRef) (s : Slide)
  : Presentation :=
  mkPresentation (slide_width prs) (slide_height prs) (slide_layouts prs)
    (<[r := s]> (slides prs)).

(** The presentation with the paragraph at [r] replaced by [p]; the same
    presentation when [r] leads to no shape. *)
Definition update_paragraph (prs : Presentation) (r : ParaRef) (p : Paragraph)
  : Presentation :=
  match get_slide prs r.1.1 with
  | None => prs
  | Some s =>
      match sl_shapes s !! r.1.2 with
      | None => prs
      | Some sh =>
          with_slide prs r.1.1
            (with_shape s r.1.2
               (with_text_frame sh (with_paragraph (sh_text_frame sh) r.2 p)))
      end
  end.

(** A paragraph as [_style_para] leaves it. *)
Definition styled_paragraph (points : Z) (bold : bool)
    (content : list TextElement) : Paragraph :=
  mkParagraph
    (mkFont (Some "Calibri") (Some (Pt points)) (Some bold) (Some white))
    (Some LEFT) content.

(** The shape of a rendered slide: two text regions, placeholders 0 and 1,
    each with one paragraph set in Calibri. *)
Definition one_calibri_paragraph (sh : Shape) : Prop :=
  map (fun p => font_name (para_font p)) (tf_paragraphs (sh_text_frame sh))
  = [Some "Calibri"].

Definition two_regions (s : Slide) : Prop :=
  map ph_idx (sl_shapes s) = [0%nat; 1%nat] /\
  Forall one_calibri_paragraph (sl_shapes s).

(* ====================================================================== *)
(** ** The default of the key field (app.py, line 140) *)

(** [os.getenv("GROQ_API_KEY", "") or st.secrets.get("GROQ_API_KEY", "")],
    given the variable of the environment (if set) and what reading the
    secret does: raise, or give the secret (if there is one).  [a or b]
    gives [a] when it is true and evaluates [b] only otherwise. *)
Definition api_default (env : option string) (secret : Exn + option string)
  : Exn + string :=
  let from_env := match env with Some v => v | None => "" end in
  if truthy from_env then inr from_env
  else match secret with
       | inl e => inl e
       | inr v => inr (match v with Some s => s | None => "" end)
       end.

(* ====================================================================== *)
(** ** Records as JSON objects *)

(** The object that holds the fields of a record under their names. *)
Definition CoverSlide_to_json (c : CoverSlide.t) : json :=
  json_cover (CoverSlide.slide_number c) "cover"
    (CoverSlide.title c) (CoverSlide.subtitle c).

Definition QASlide_to_json (q : QASlide.t) : json :=
  json_qa (QASlide.slide_number q) "qa" (QASlide.question q) (QASlide.answer q).

Definition Carousel_to_json (c : Carousel.t) : json :=
  json_carousel (CoverSlide_to_json (Carousel.cover c))
    (map QASlide_to_json (Carousel.qa_slides c)).

(** The text that a payload record carries under [k], as the validator
    reads it. *)
Definition payload_text (to_str : json -> option string) (k : string)
    (j : json) (s : string) : Prop :=
  exists v, get_field k j = Some v /\ to_str v = Some s.

Definition cover_keys : list string :=
  ["slide_number"; "type"; "title"; "subtitle"].

Definition qa_keys : list string :=
  ["slide_number"; "type"; "question"; "answer"].

(* ====================================================================== *)
(** ** Events, by kind *)

Definition is_llm_complete (e : Event) : bool :=
  match e with llm_complete _ _ _ => true | _ => false end.

Definition is_sllm_complete (e : Event) : bool :=
  match e with sllm_complete _ _ _ => true | _ => false end.

(** An outbound call that goes to the fixed model with the key [api_key]. *)
Definition call_uses_key (api_key : string) (e : Event) : Prop :=
  match e with
  | llm_complete m k _ | sllm_complete m k _ => m = model_id /\ k = api_key
  | _ => True
  end.

(** The events of a submission up to the first call. *)
Definition before_call (topic api_key : string) : list Event :=
  [load_dotenv; environ_set "GROQ_API_KEY" api_key;
   st_spinner "Contacting Groq, generating content…";
   llm_complete model_id api_key (PROMPT_TMPL_format topic)].

(** The events of a submission in which both calls return. *)
Definition both_calls (topic api_key raw : string) : list Event :=
  (before_call topic api_key
   ++ [sllm_complete model_id api_key raw; st_spinner "Rendering PPTX…"])%list.

(** An access through the reference of the slide added last reaches that
    slide and leaves the others alone. *)
Lemma on_slide_last {A} (f : Slide -> Exn + (A * Slide)) w h lay l s :
  on_slide (length l) f (mkPresentation w h lay (l ++ [s])) =
  match f s with
  | inl e => inl e
  | inr (a, s') => inr (a, mkPresentation w h lay (l ++ [s']))
  end.
Proof.
  unfold on_slide; cbn [slides slide_width slide_height slide_layouts].
  rewrite list_lookup_middle by reflexivity.
  destruct (f s) as [e | [a s']]; [reflexivity |].
  rewrite insert_app_r_alt by lia.
  rewrite Nat.sub_diag. reflexivity.
Qed.

Ltac unfold_pptx :=
  unfold _black_bg, _style_para, set_margins, shapes_title,
    placeholders_getitem, background_fill, solid, set_fore_color_rgb,
    clear, set_vertical_anchor, set_margin_left, set_margin_right,
    set_margin_top, set_margin_bottom, paragraphs_getitem, set_font_name,
    set_font_size, set_font_bold, set_font_color_rgb, set_alignment, set_text,
    on_font, on_paragraph, on_text_frame, on_shape, bind, add_slide,
    slide_layouts_getitem, set_slide_width, set_slide_height.

(** A whole number of points is a whole number of hundredths of a point. *)
Lemma Pt_centipoints points : Pt points / 127 = points * 100.
Proof.
  unfold Pt. replace (points * 12700) with (points * 100 * 127) by lia.
  apply Z.div_mul. lia.
Qed.

Lemma Pt_in_range points :
  1 <= points <= 4000 ->
  ((100 <=? points * 100) && (points * 100 <=? 400000))%Z = true.
Proof.
  intros H. apply andb_true_intro. split; apply Z.leb_le; lia.
Qed.

Lemma Pt_read_back points : points * 100 * 127 = Pt points.
Proof. unfold Pt. lia. Qed.

Ltac step_pptx :=
  repeat (rewrite on_slide_last;
          cbn -[text_elements xml_compatible Pt Z.mul Z.leb for_each qa_body
                Inches];
          rewrite ?Pt_centipoints, ?Pt_read_back;
          rewrite ?Pt_in_range by lia).

(** One turn of the loop appends the slide of its record, unless the
    question or the answer is a text that lxml does not take. *)
Lemma qa_body_spec qa w h l :
  qa_body qa (mkPresentation w h default_layouts l) =
  if qa_renderable qa
  then inr (tt, mkPresentation w h default_layouts (l ++ [qa_slide qa]))
  else inl ValueError.
Proof.
  unfold qa_body, qa_renderable; unfold_pptx.
  cbn [slides slide_width slide_height slide_layouts default_layouts
       lookup list_lookup fst snd].
  destruct (xml_compatible (QASlide.question qa)) eqn:Hq;
    [destruct (xml_compatible (QASlide.answer qa)) eqn:Ha |];
    (step_pptx; rewrite ?Hq; step_pptx; rewrite ?Ha; step_pptx; reflexivity).
Qed.

Lemma for_each_qa_body qas : forall w h l,
  for_each qas qa_body (mkPresentation w h default_layouts l) =
  if forallb qa_renderable qas
  then inr (tt, mkPresentation w h default_layouts (l ++ map qa_slide qas))
  else inl ValueError.
Proof.
  induction qas as [| qa qas IH]; intros w h l; cbn [for_each map forallb].
  - unfold ret. now rewrite app_nil_r.
  - unfold bind. rewrite qa_body_spec.
    destruct (qa_renderable qa); [| reflexivity].
    rewrite IH. cbn [andb].
    destruct (forallb qa_renderable qas); [| reflexivity].
    now rewrite <- app_assoc.
Qed.

(** The statements of [build_pptx] on a presentation that has slides
    already: the new slides come after them. *)
Lemma render_from carousel w h l :
  render carousel (mkPresentation w h default_layouts l) =
  if renderable carousel
  then
    let prs :=
      mkPresentation (Inches (45 # 4)) (Inches (45 # 4)) default_layouts
        (l ++ cover_slide (Carousel.cover carousel)
           :: map qa_slide (Carousel.qa_slides carousel)) in
    inr (mkBytesIO (Some prs) true, prs)
  else inl ValueError.
Proof.
  unfold render, renderable; unfold_pptx.
  cbn [slides slide_width slide_height slide_layouts default_layouts
       lookup list_lookup fst snd].
  destruct (xml_compatible (CoverSlide.title (Carousel.cover carousel)))
    eqn:Ht;
    [destruct (xml_compatible (CoverSlide.subtitle (Carousel.cover carousel)))
       eqn:Hs |];
    step_pptx; rewrite ?Ht; step_pptx; rewrite ?Hs; step_pptx;
    try reflexivity.
  rewrite for_each_qa_body.
  destruct (forallb qa_renderable (Carousel.qa_slides carousel));
    [| reflexivity].
  cbn [andb]. now rewrite <- app_assoc.
Qed.

Lemma render_spec carousel :
  render carousel Presentation_new =
  if renderable carousel
  then inr (mkBytesIO (Some (deck carousel)) true, deck carousel)
  else inl ValueError.
Proof.
  unfold Presentation_new. rewrite render_from. reflexivity.
Qed.

(** [build_pptx] in one step: the deck of the carousel in a rewound
    buffer, or [ValueError] when one of its texts is not taken. *)
Lemma build_pptx_spec carousel :
  build_pptx carousel =
  if renderable carousel
  then inr (mkBytesIO (Some (deck carousel)) true)
  else inl ValueError.
Proof.
  unfold build_pptx. rewrite render_spec.
  now destruct (renderable carousel).
Qed.

Lemma renderable_renders carousel :
  renderable carousel = true -> renders_to carousel (deck carousel).
Proof.
  intros H. unfold renders_to. now rewrite build_pptx_spec, H.
Qed.

Lemma renders_to_deck carousel prs :
  renders_to carousel prs -> prs = deck carousel /\ renderable carousel = true.
Proof.
  unfold renders_to. rewrite build_pptx_spec.
  destruct (renderable carousel); [| discriminate].
  intros [= <-]. now split.
Qed.

Lemma not_renderable_raises carousel :
  renderable carousel = false -> build_pptx carousel = inl ValueError.
Proof.
  intros H. now rewrite build_pptx_spec, H.
Qed.

(* ====================================================================== *)
(** ** Texts as they are read back *)

Lemma plain_char_kept c :
  plain_char c = true -> is_break c = false /\ is_escaped c = false.
Proof.
  destruct c as [[] [] [] [] [] [] [] []]; vm_compute; intros H;
    try discriminate H; split; reflexivity.
Qed.

Lemma split_breaks_plain s :
  all_chars plain_char s = true -> split_breaks s = (s, []).
Proof.
  induction s as [| c s IH]; [reflexivity |].
  cbn [all_chars split_breaks]. intros [Hc Hs]%andb_prop.
  rewrite (IH Hs).
  now destruct (plain_char_kept c Hc) as [-> _].
Qed.

Lemma escape_plain s : all_chars plain_char s = true -> escape s = s.
Proof.
  induction s as [| c s IH]; [reflexivity |].
  cbn [all_chars escape]. intros [Hc Hs]%andb_prop.
  destruct (plain_char_kept c Hc) as [_ ->].
  now rewrite (IH Hs).
Qed.

Lemma append_empty_r s : s +:+ "" = s.
Proof.
  induction s as [| c s IH]; [reflexivity |].
  change (String c (s +:+ "") = String c s). now rewrite IH.
Qed.

(** A run for the whole text, or nothing for the empty text. *)
Lemma text_elements_plain s :
  all_chars plain_char s = true -> text_elements s = run_of s.
Proof.
  intros H. unfold text_elements. rewrite (split_breaks_plain s H).
  cbn. now rewrite app_nil_r.
Qed.

(** Plain text is read back as it was assigned. *)
Lemma rendered_text_plain s : plain_text s = true -> rendered_text s = s.
Proof.
  unfold plain_text, rendered_text. intros [H _]%andb_prop.
  rewrite (text_elements_plain s H).
  destruct s as [| c s]; [reflexivity |].
  cbn [run_of elements_text].
  now rewrite append_empty_r, (escape_plain _ H).
Qed.

Lemma plain_text_compatible s : plain_text s = true -> xml_compatible s = true.
Proof. unfold plain_text. now intros [_ H]%andb_prop. Qed.

Lemma forallb_impl {A} (f g : A -> bool) l :
  (forall x, f x = true -> g x = true) ->
  forallb f l = true -> forallb g l = true.
Proof.
  intros Hfg. induction l as [| x l IH]; [reflexivity |].
  cbn. intros [Hx Hl]%andb_prop. now rewrite (Hfg x Hx), (IH Hl).
Qed.


Lemma plain_carousel_renderable c :
  plain_carousel c = true -> renderable c = true.
Proof.
  unfold plain_carousel, renderable.
  intros [[Ht Hs]%andb_prop Hq]%andb_prop.
  rewrite (plain_text_compatible _ Ht), (plain_text_compatible _ Hs).
  cbn [andb]. revert Hq. apply forallb_impl.
  intros qa [Hqu Han]%andb_prop. unfold qa_renderable.
  now rewrite (plain_text_compatible _ Hqu), (plain_text_compatible _ Han).
Qed.

(* ====================================================================== *)
(** ** The deck renderer *)



Lemma themed_styled_frame points bold text :
  themed_frame (styled_frame points bold text).
Proof.
  unfold themed_frame, styled_frame; cbn.
  repeat split; try discriminate.
  constructor; [now split | constructor].
Qed.

Lemma themed_cover_slide cover : themed_slide (cover_slide cover).
Proof.
  split; [reflexivity |].
  repeat constructor; apply themed_styled_frame.
Qed.

Lemma themed_qa_slide qa : themed_slide (qa_slide qa).
Proof.
  split; [reflexivity |].
  repeat constructor; apply themed_styled_frame.
Qed.

Lemma lookup_map {A B} (f : A -> B) (l : list A) : forall i x,
  l !! i = Some x -> map f l !! i = Some (f x).
Proof.
  induction l as [| a l IH]; intros [| i] x H; try discriminate.
  - injection H as ->. reflexivity.
  - cbn in *. now apply IH.
Qed.

(** The slide of the [i]-th record sits right after the cover. *)
Lemma deck_lookup_qa carousel i qa :
  Carousel.qa_slides carousel !! i = Some qa ->
  slides (deck carousel) !! (i + 1)%nat = Some (qa_slide qa).
Proof.
  intros Hi. rewrite Nat.add_1_r.
  unfold deck; cbn [slides].
  change (map qa_slide (Carousel.qa_slides carousel) !! i = Some (qa_slide qa)).
  now apply lookup_map.
Qed.

Lemma renderable_carousel_ordered : renders_to carousel_ordered (deck carousel_ordered).
Proof. apply renderable_renders. reflexivity. Qed.

(** C1, as the code has it.  For every carousel whose title, subtitle,
    questions and answers hold no U+FFFE, no U+FFFF and no surrogate,
    [build_pptx] returns a buffer, and the deck in it has one slide more
    than the carousel has question/answer records. *)
Theorem build_pptx_slide_count (carousel : Carousel.t) :
  renderable carousel = true ->
  exists prs, renders_to carousel prs /\
    length (slides prs) = (1 + length (Carousel.qa_slides carousel))%nat.
Proof.
  intros Hok. exists (deck carousel).
  split; [now apply renderable_renders |].
  cbn. now rewrite length_map.
Qed.

Lemma build_pptx_slide_count_witness :
  renderable carousel_ordered = true /\
  exists prs, renders_to carousel_ordered prs /\ length (slides prs) = 3%nat.
Proof.
  split; [reflexivity |].
  exact (build_pptx_slide_count carousel_ordered eq_refl).
Defined.

(** C1, as the specification words it, does not hold: a carousel whose
    title is U+FFFE is a value of the class, and rendering it raises
    [ValueError]. *)
Lemma FFFE_title_raises :
  build_pptx carousel_FFFE_title = inl ValueError /\
  ~ exists prs, renders_to carousel_FFFE_title prs.
Proof.
  assert (H : build_pptx carousel_FFFE_title = inl ValueError)
    by (apply not_renderable_raises; reflexivity).
  split; [exact H |].
  intros [prs Hprs]. unfold renders_to in Hprs. congruence.
Qed.




(** C4.  Every deck that [build_pptx] returns is as wide as it is high,
    and each of its slides has a solid black background and text regions
    with white, left-aligned text, anchored at the top, with no inset on
    any side. *)
Theorem build_pptx_theme (carousel : Carousel.t) (prs : Presentation) :
  renders_to carousel prs ->
  slide_width prs = slide_height prs /\
  Forall themed_slide (slides prs).
Proof.
  intros [-> _]%renders_to_deck.
  split; [reflexivity |].
  cbn. constructor; [apply themed_cover_slide |].
  apply Forall_fmap, Forall_forall. intros qa _. apply themed_qa_slide.
Qed.

Lemma build_pptx_theme_witness :
  renders_to carousel_ordered (deck carousel_ordered) /\
  slide_width (deck carousel_ordered) = slide_height (deck carousel_ordered) /\
  Forall themed_slide (slides (deck carousel_ordered)).
Proof.
  split; [exact renderable_carousel_ordered |].
  exact (build_pptx_theme carousel_ordered (deck carousel_ordered)
           renderable_carousel_ordered).
Defined.

(** C5.  In every deck that [build_pptx] returns, the cover title is bold
    at 54 pt, the cover subtitle is not bold at 34 pt, every question is
    bold at 40 pt and every answer is not bold at 30 pt; the subtitle scale
    is below the title scale, the question scale lies between the answer
    scale and the title scale, and the answer scale is the smallest. *)
Theorem build_pptx_font_scales (carousel : Carousel.t) (prs : Presentation) :
  renders_to carousel prs ->
  (exists s, slides prs !! 0%nat = Some s /\
             region_fonts s = [[(Some (Pt 54), Some true)];
                               [(Some (Pt 34), Some false)]]) /\
  (forall i, (i < length (Carousel.qa_slides carousel))%nat ->
     exists s, slides prs !! (i + 1)%nat = Some s /\
               region_fonts s = [[(Some (Pt 40), Some true)];
                                 [(Some (Pt 30), Some false)]]) /\
  Pt 34 < Pt 54 /\
  Pt 30 < Pt 40 /\ Pt 40 < Pt 54 /\
  Pt 30 < Pt 34.
Proof.
  intros [-> _]%renders_to_deck. split.
  - exists (cover_slide (Carousel.cover carousel)). split; reflexivity.
  - split; [| unfold Pt; lia].
    intros i Hi.
    destruct (lookup_lt_is_Some_2 (Carousel.qa_slides carousel) i Hi)
      as [qa Hqa].
    exists (qa_slide qa). split; [now apply deck_lookup_qa | reflexivity].
Qed.

Lemma build_pptx_font_scales_witness :
  renders_to carousel_ordered (deck carousel_ordered) /\
  exists s, slides (deck carousel_ordered) !! 1%nat = Some s /\
    region_fonts s = [[(Some 508000, Some true)]; [(Some 381000, Some false)]].
Proof.
  split; [exact renderable_carousel_ordered |].
  destruct (build_pptx_font_scales carousel_ordered (deck carousel_ordered)
              renderable_carousel_ordered) as (_ & Hqa & _).
  apply (Hqa 0%nat). cbn. lia.
Defined.








(** C10, as the code has it.  [build_pptx] returns for every value of
    [Carousel] whose texts hold no U+FFFE, no U+FFFF and no surrogate, and
    raises [ValueError] for every other; for one of the former whose list
    of pairs is empty the deck it returns has the cover slide and no
    other. *)
Theorem build_pptx_total :
  (forall carousel : Carousel.t,
     renderable carousel = true -> exists buf, build_pptx carousel = inr buf) /\
  (forall carousel : Carousel.t,
     renderable carousel = false -> build_pptx carousel = inl ValueError) /\
  (forall cover : CoverSlide.t,
     renderable (Carousel.mk cover []) = true ->
     exists prs s, renders_to (Carousel.mk cover []) prs /\
       slides prs = [s] /\
       text_regions s = [rendered_text (CoverSlide.title cover);
                         rendered_text (CoverSlide.subtitle cover)]).
Proof.
  split; [| split].
  - intros carousel Hok. eexists. now apply renderable_renders.
  - apply not_renderable_raises.
  - intros cover Hok.
    exists (deck (Carousel.mk cover [])), (cover_slide cover).
    split; [now apply renderable_renders |]. split; reflexivity.
Qed.

Lemma build_pptx_total_witness :
  exists prs s, renders_to carousel_two_lines prs /\ slides prs = [s].
Proof.
  destruct (proj2 (proj2 build_pptx_total)
              (Carousel.cover carousel_two_lines) eq_refl)
    as (prs & s & Hprs & Hs & _).
  exists prs, s. split; [exact Hprs | exact Hs].
Defined.

(** C10, as it is worded, does not hold: a carousel with no pair and U+FFFF
    for a subtitle is a value of the class, and [build_pptx] raises on
    it. *)
Lemma FFFF_subtitle_raises :
  build_pptx carousel_FFFF_subtitle = inl ValueError.
Proof. apply not_renderable_raises. reflexivity. Qed.

(* ====================================================================== *)
(** ** The outline validator *)

Section ValidationFacts.

Variable to_int : json -> option Z.
Variable to_str : json -> option string.

Local Abbreviation CoverSlide_validate := (CoverSlide_validate to_int to_str).
Local Abbreviation QASlide_validate := (QASlide_validate to_int to_str).
Local Abbreviation Carousel_validate := (Carousel_validate to_int to_str).

Lemma validate_int_raises : only_ValidationError (validate_int to_int).
Proof.
  intros j e. unfold validate_int.
  destruct (to_int j); congruence.
Qed.

Lemma validate_str_raises : only_ValidationError (validate_str to_str).
Proof.
  intros j e. unfold validate_str.
  destruct (to_str j); congruence.
Qed.

Lemma validate_Literal_raises {A} lit (a : A) :
  only_ValidationError (validate_Literal lit a).
Proof.
  intros j e. unfold validate_Literal.
  destruct j; try congruence.
  destruct (String.eqb s lit); congruence.
Qed.

Lemma required_raises {A} k (conv : json -> Exn + A) :
  only_ValidationError conv -> only_ValidationError (required k conv).
Proof.
  intros Hconv j e. unfold required.
  destruct (get_field k j); [apply Hconv | congruence].
Qed.

Lemma validate_items_raises {A} (conv : json -> Exn + A) :
  only_ValidationError conv ->
  forall items e, validate_items conv items = inl e -> e = ValidationError.
Proof.
  intros Hconv items.
  induction items as [| j items IH]; intros e; cbn; [discriminate |].
  destruct (conv j) as [e1 | x] eqn:Hj.
  - intros [= <-]. eapply Hconv, Hj.
  - destruct (validate_items conv items) as [e2 | xs]; [| discriminate].
    intros [= <-]. now apply IH.
Qed.

Lemma QASlide_validate_raises : only_ValidationError QASlide_validate.
Proof.
  intros j e. unfold QASlide_validate.
  destruct (required "slide_number" (validate_int to_int) j) eqn:H1;
    [intros [= <-]; eapply required_raises, H1; apply validate_int_raises |].
  destruct (required "type" (validate_Literal "qa" LitQa) j) eqn:H2;
    [intros [= <-]; eapply required_raises, H2; apply validate_Literal_raises |].
  destruct (required "question" (validate_str to_str) j) eqn:H3;
    [intros [= <-]; eapply required_raises, H3; apply validate_str_raises |].
  destruct (required "answer" (validate_str to_str) j) eqn:H4;
    [intros [= <-]; eapply required_raises, H4; apply validate_str_raises |].
  discriminate.
Qed.

Lemma CoverSlide_validate_raises : only_ValidationError CoverSlide_validate.
Proof.
  intros j e. unfold CoverSlide_validate.
  destruct (required "slide_number" (validate_int to_int) j) eqn:H1;
    [intros [= <-]; eapply required_raises, H1; apply validate_int_raises |].
  destruct (required "type" (validate_Literal "cover" LitCover) j) eqn:H2;
    [intros [= <-]; eapply required_raises, H2; apply validate_Literal_raises |].
  destruct (required "title" (validate_str to_str) j) eqn:H3;
    [intros [= <-]; eapply required_raises, H3; apply validate_str_raises |].
  destruct (required "subtitle" (validate_str to_str) j) eqn:H4;
    [intros [= <-]; eapply required_raises, H4; apply validate_str_raises |].
  discriminate.
Qed.






(** What an accepted record says about the payload it came from. *)
Lemma QASlide_validate_position j qa :
  QASlide_validate j = inr qa ->
  payload_position to_int j (QASlide.slide_number qa).
Proof.
  unfold QASlide_validate, payload_position, required, validate_int.
  destruct (get_field "slide_number" j) as [v |]; [| discriminate].
  destruct (to_int v) as [z |] eqn:Hz; [| discriminate].
  intros H. exists v. split; [reflexivity |].
  repeat match type of H with
         | match ?x with _ => _ end = _ => destruct x; try discriminate
         end.
  injection H as <-. exact Hz.
Qed.

Lemma validate_items_positions items : forall qas,
  validate_items QASlide_validate items = inr qas ->
  Forall2 (fun j qa => payload_position to_int j (QASlide.slide_number qa))
          items qas.
Proof.
  induction items as [| j items IH]; intros qas; cbn.
  - intros [= <-]. constructor.
  - destruct (QASlide_validate j) as [| qa] eqn:Hj; [discriminate |].
    destruct (validate_items _ items) as [| qas']; [discriminate |].
    intros [= <-]. constructor; [now apply QASlide_validate_position | now apply IH].
Qed.

End ValidationFacts.

(* ====================================================================== *)
(** ** The submit handler *)

(** Every run of the handler, by the first thing that goes wrong.  The
    last case is the run in which both calls return: [build_pptx] is given
    the [CompletionResponse] and raises at [carousel.cover]. *)
Lemma on_submit_cases
    (complete_text : string -> string -> string -> Exn + string)
    (structured_response :
       string -> string -> string -> Exn + CompletionResponse)
    (topic api_key : string) :
  on_submit complete_text structured_response topic api_key =
  if negb (truthy topic)
  then mkRun [st_error "Please enter a topic."] Stopped
  else if negb (truthy api_key)
  then mkRun [st_error "Please enter your Groq API key."] Stopped
  else
    match complete_text model_id api_key (PROMPT_TMPL_format topic) with
    | inl e => mkRun (before_call topic api_key) (Raised e)
    | inr raw =>
        match structured_response model_id api_key raw with
        | inl e =>
            mkRun (before_call topic api_key
                     ++ [sllm_complete model_id api_key raw]) (Raised e)
        | inr _ =>
            mkRun (both_calls topic api_key raw) (Raised AttributeError)
        end
    end.
Proof.
  unfold on_submit, submit.
  destruct (truthy topic); [| reflexivity].
  destruct (truthy api_key); [| reflexivity].
  cbn -[PROMPT_TMPL_format file_name].
  destruct (complete_text _ _ _) as [e | raw]; [reflexivity |].
  cbn -[PROMPT_TMPL_format file_name].
  destruct (structured_response _ _ raw) as [e | r]; reflexivity.
Qed.

Ltac submit_cases :=
  rewrite !on_submit_cases;
  repeat match goal with
         | |- context [match ?x with _ => _ end] => destruct x eqn:?
         end.





(** C6, as the code has it.  An accepted carousel carries on each
    question/answer record the integer that the validator reads in the
    [slide_number] of the payload record it came from, record by record in
    payload order; nothing ties these integers to each other. *)
Theorem accepted_positions_from_payload
    (to_int : json -> option Z) (to_str : json -> option string)
    (p : json) (c : Carousel.t) :
  Carousel_validate to_int to_str p = inr c ->
  exists items,
    get_field "qa_slides" p = Some (JArr items) /\
    Forall2 (fun j qa => payload_position to_int j (QASlide.slide_number qa))
            items (Carousel.qa_slides c).
Proof.
  unfold Carousel_validate, required.
  destruct (get_field "cover" p) as [jc |]; [| discriminate].
  destruct (CoverSlide_validate to_int to_str jc) as [| cover];
    [discriminate |].
  destruct (get_field "qa_slides" p) as [[| | | | items |] |]; try discriminate.
  cbn [validate_List].
  destruct (validate_items _ items) as [| qas] eqn:Hqas; [discriminate |].
  intros [= <-]. exists items. cbn.
  split; [reflexivity |].
  now apply (validate_items_positions to_int to_str).
Qed.

Lemma accepted_positions_from_payload_witness :
  Carousel_validate int_of_JInt str_of_JStr payload_unordered
  = inr carousel_unordered /\
  exists items,
    get_field "qa_slides" payload_unordered = Some (JArr items) /\
    Forall2 (fun j qa => payload_position int_of_JInt j (QASlide.slide_number qa))
            items [nash_qa 7; zero_sum_qa 3].
Proof.
  split; [reflexivity |].
  exact (accepted_positions_from_payload int_of_JInt str_of_JStr
           payload_unordered carousel_unordered eq_refl).
Defined.

(** C6, as the specification words it, does not hold: the validator
    accepts a carousel whose pairs are numbered 7 and 3. *)
Lemma unordered_positions_accepted :
  Carousel_validate int_of_JInt str_of_JStr payload_unordered
  = inr carousel_unordered /\
  ~ positions_sequential carousel_unordered.
Proof.
  split; [reflexivity |].
  intros [_ H]. vm_compute in H. discriminate.
Qed.


(** C8.  A submission with an empty topic or an empty key shows one error
    message and stops: the run has no call to the completion service and no
    download button. *)
Theorem empty_input_stops
    (complete_text : string -> string -> string -> Exn + string)
    (structured_response :
       string -> string -> string -> Exn + CompletionResponse)
    (topic api_key : string) :
  topic = "" \/ api_key = "" ->
  (exists body,
     events (on_submit complete_text structured_response topic api_key)
     = [st_error body]) /\
  ending (on_submit complete_text structured_response topic api_key)
  = Stopped /\
  existsb is_outbound_call
    (events (on_submit complete_text structured_response topic api_key))
  = false /\
  existsb is_document
    (events (on_submit complete_text structured_response topic api_key))
  = false.
Proof.
  intros Hempty.
  assert (Hrun :
    on_submit complete_text structured_response topic api_key
    = mkRun [st_error "Please enter a topic."] Stopped \/
    on_submit complete_text structured_response topic api_key
    = mkRun [st_error "Please enter your Groq API key."] Stopped).
  { unfold on_submit, submit.
    destruct topic as [| a topic'].
    - left. reflexivity.
    - destruct Hempty as [Habs | ->]; [discriminate Habs |].
      right. reflexivity. }
  destruct Hrun as [-> | ->]; cbn; eauto.
Qed.

Lemma empty_input_stops_witness :
  events (on_submit (const_text "raw") (const_response response_unordered)
                    "" "gsk_key")
  = [st_error "Please enter a topic."] /\
  ending (on_submit (const_text "raw") (const_response response_unordered)
                    "Game Theory" "")
  = Stopped.
Proof.
  split.
  - reflexivity.
  - exact (proj1 (proj2 (empty_input_stops (const_text "raw")
                           (const_response response_unordered)
                           "Game Theory" "" (or_intror eq_refl)))).
Defined.

(* ====================================================================== *)
(** ** The file name *)

Lemma get_replace old new s : forall i,
  String.get i (replace old new s)
  = option_map (fun c => if Ascii.eqb c old then new else c) (String.get i s).
Proof.
  induction s as [| c s IH]; intros [| i]; cbn; auto.
Qed.

Lemma length_replace old new s :
  String.length (replace old new s) = String.length s.
Proof.
  induction s as [| c s IH]; cbn; congruence.
Qed.

Lemma get_append_l s1 s2 : forall i c,
  String.get i s1 = Some c -> String.get i (s1 +:+ s2) = Some c.
Proof.
  induction s1 as [| a s1 IH]; intros [| i] c; cbn; try discriminate.
  - auto.
  - apply IH.
Qed.

Lemma get_append_r s1 s2 : forall i,
  String.get (String.length s1 + i) (s1 +:+ s2) = String.get i s2.
Proof.
  induction s1 as [| a s1 IH]; intros i; cbn; [reflexivity | apply IH].
Qed.

Lemma length_append s1 s2 :
  String.length (s1 +:+ s2) = (String.length s1 + String.length s2)%nat.
Proof.
  induction s1 as [| a s1 IH]; [reflexivity |].
  change (S (String.length (s1 +:+ s2))
          = S (String.length s1 + String.length s2)).
  now rewrite IH.
Qed.

(** C7, as the code has it.  The file name is ["LinkedIn_Carousel_"], then
    the topic with each space turned into an underscore and every other
    character kept where it is, then [".pptx"]. *)
Theorem file_name_replaces_spaces (topic : string) :
  String.length (file_name topic)
  = (topic_offset + String.length topic + String.length ".pptx")%nat /\
  (forall i, (i < topic_offset)%nat ->
     String.get i (file_name topic) = String.get i "LinkedIn_Carousel_") /\
  (forall i c, String.get i topic = Some c ->
     String.get (topic_offset + i) (file_name topic)
     = Some (if Ascii.eqb c " " then "_"%char else c)) /\
  (forall i,
     String.get (topic_offset + String.length topic + i) (file_name topic)
     = String.get i ".pptx").
Proof.
  unfold file_name. repeat split.
  - rewrite !length_append, length_replace. unfold topic_offset. lia.
  - intros i Hi.
    destruct (String.get i "LinkedIn_Carousel_") as [c |] eqn:Hc.
    + now apply get_append_l.
    + unfold topic_offset in Hi. cbn in Hi.
      do 18 (destruct i as [| i]; [discriminate Hc |]). lia.
  - intros i c Hc. unfold topic_offset.
    rewrite get_append_r. apply get_append_l.
    now rewrite get_replace, Hc.
  - intros i. unfold topic_offset.
    rewrite <- Nat.add_assoc, get_append_r.
    rewrite <- (length_replace " " "_" topic).
    apply get_append_r.
Qed.

Lemma file_name_replaces_spaces_witness :
  String.get 4 "Game Theory" = Some " "%char /\
  String.get (topic_offset + 4) (file_name "Game Theory") = Some "_"%char.
Proof.
  split; [reflexivity |].
  exact (proj1 (proj2 (proj2 (file_name_replaces_spaces "Game Theory")))
           4%nat " "%char eq_refl).
Defined.

(** C7, as the specification words it, does not hold: the slash of the
    topic [A/B] is neither a letter nor a digit and is still in the file
    name, which reads [LinkedIn_Carousel_A/B.pptx]. *)
Lemma slash_kept_in_file_name :
  file_name "A/B" = "LinkedIn_Carousel_A/B.pptx" /\
  ~ non_alnum_replaced "A/B".
Proof.
  split; [reflexivity |].
  intros H. apply (H 1%nat "/"%char); reflexivity.
Qed.

(* ====================================================================== *)
(* ====================================================================== *)
(** ** The styling helpers on any presentation *)

Lemma on_paragraph_apply {A} prs para p
    (f : Paragraph -> Exn + (A * Paragraph)) :
  get_paragraph prs para = Some p ->
  on_paragraph para f prs
  = match f p with
    | inl e => inl e
    | inr (a, p') => inr (a, update_paragraph prs para p')
    end.
Proof.
  destruct para as [[r k] i].
  unfold get_paragraph, get_shape, get_slide, update_paragraph, on_paragraph,
    on_text_frame, on_shape, on_slide; cbn.
  destruct (slides prs !! r) as [s |]; [| discriminate].
  destruct (sl_shapes s !! k) as [sh |]; [| discriminate].
  intros ->. now destruct (f p) as [e | [a p']].
Qed.

Lemma on_paragraph_assign prs para p (f : Paragraph -> Paragraph) :
  get_paragraph prs para = Some p ->
  on_paragraph para (assign f) prs = inr (tt, update_paragraph prs para (f p)).
Proof.
  intros Hp. now rewrite (on_paragraph_apply _ _ _ _ Hp).
Qed.

Lemma on_paragraph_dangling {A} prs para (f : Paragraph -> Exn + (A * Paragraph)) :
  get_paragraph prs para = None ->
  on_paragraph para f prs = inl ReferenceError.
Proof.
  destruct para as [[r k] i].
  unfold get_paragraph, get_shape, get_slide, on_paragraph,
    on_text_frame, on_shape, on_slide; cbn.
  destruct (slides prs !! r) as [s |]; [| reflexivity].
  destruct (sl_shapes s !! k) as [sh |]; [| reflexivity].
  intros ->. reflexivity.
Qed.

Lemma get_update_paragraph prs para p p' :
  get_paragraph prs para = Some p ->
  get_paragraph (update_paragraph prs para p') para = Some p'.
Proof.
  destruct para as [[r k] i].
  unfold get_paragraph, get_shape, get_slide, update_paragraph; cbn.
  destruct (slides prs !! r) as [s |] eqn:Hs; [| discriminate].
  destruct (sl_shapes s !! k) as [sh |] eqn:Hsh; [| discriminate].
  intros Hp. cbn.
  rewrite list_lookup_insert_eq by (eapply lookup_lt_Some; eassumption). cbn.
  rewrite list_lookup_insert_eq by (eapply lookup_lt_Some; eassumption). cbn.
  apply list_lookup_insert_eq. eapply lookup_lt_Some; eassumption.
Qed.

Lemma get_update_paragraph_ne prs para para' p' :
  para' <> para ->
  get_paragraph (update_paragraph prs para p') para' = get_paragraph prs para'.
Proof.
  destruct para as [[r k] i], para' as [[r' k'] i'].
  intros Hne.
  unfold get_paragraph, get_shape, get_slide, update_paragraph; cbn.
  destruct (slides prs !! r) as [s |] eqn:Hs; [| reflexivity].
  destruct (sl_shapes s !! k) as [sh |] eqn:Hsh; [| reflexivity].
  cbn.
  destruct (decide (r = r')) as [<- | Hr];
    [| now rewrite list_lookup_insert_ne].
  rewrite list_lookup_insert_eq by (eapply lookup_lt_Some; eassumption).
  rewrite Hs. cbn.
  destruct (decide (k = k')) as [<- | Hk];
    [| now rewrite list_lookup_insert_ne].
  rewrite list_lookup_insert_eq by (eapply lookup_lt_Some; eassumption).
  rewrite Hsh. cbn.
  apply list_lookup_insert_ne. congruence.
Qed.

Lemma update_update_paragraph prs para p1 p2 :
  update_paragraph (update_paragraph prs para p1) para p2
  = update_paragraph prs para p2.
Proof.
  destruct para as [[r k] i].
  unfold update_paragraph, get_slide; cbn.
  destruct (slides prs !! r) as [s |] eqn:Hs; [| now rewrite Hs].
  destruct (sl_shapes s !! k) as [sh |] eqn:Hsh; [| now rewrite Hs, Hsh].
  cbn.
  rewrite list_lookup_insert_eq by (eapply lookup_lt_Some; eassumption). cbn.
  rewrite list_lookup_insert_eq by (eapply lookup_lt_Some; eassumption).
  unfold with_slide, with_shape, with_text_frame, with_paragraph; cbn.
  now rewrite !list_insert_insert_eq.
Qed.

Lemma length_update_paragraph prs para p :
  length (slides (update_paragraph prs para p)) = length (slides prs).
Proof.
  destruct para as [[r k] i].
  unfold update_paragraph, get_slide; cbn.
  destruct (slides prs !! r) as [s |]; [| reflexivity].
  destruct (sl_shapes s !! k) as [sh |]; [| reflexivity].
  cbn. apply length_insert.
Qed.

Lemma Pt_out_of_range points :
  points < 1 \/ 4000 < points ->
  ((100 <=? points * 100) && (points * 100 <=? 400000))%Z = false.
Proof.
  intros [H | H].
  - replace (100 <=? points * 100)%Z with false; [reflexivity |].
    symmetry. apply Z.leb_gt. lia.
  - replace (points * 100 <=? 400000)%Z with false; [apply andb_false_r |].
    symmetry. apply Z.leb_gt. lia.
Qed.

(** [_style_para] in one step, for a size that python-pptx takes: the
    paragraph takes the five properties and keeps what it holds. *)
Lemma style_para_spec prs para points bold p :
  get_paragraph prs para = Some p ->
  1 <= points <= 4000 ->
  _style_para para points bold prs
  = inr (tt, update_paragraph prs para
               (styled_paragraph points bold (para_content p))).
Proof.
  intros Hp Hrange.
  unfold _style_para, set_font_name, set_font_size, set_font_bold,
    set_font_color_rgb, set_alignment, on_font, bind.
  rewrite (on_paragraph_assign _ _ _ _ Hp).
  erewrite on_paragraph_apply by (eapply get_update_paragraph; eassumption).
  rewrite Pt_centipoints, (Pt_in_range _ Hrange), Pt_read_back.
  rewrite update_update_paragraph.
  repeat (erewrite on_paragraph_assign
            by (eapply get_update_paragraph; eassumption);
          rewrite update_update_paragraph).
  reflexivity.
Qed.

Lemma style_para_out_of_range prs para points bold p :
  get_paragraph prs para = Some p ->
  points < 1 \/ 4000 < points ->
  _style_para para points bold prs = inl ValueError.
Proof.
  intros Hp Hrange.
  unfold _style_para, set_font_name, set_font_size, on_font, bind.
  rewrite (on_paragraph_assign _ _ _ _ Hp).
  erewrite on_paragraph_apply by (eapply get_update_paragraph; eassumption).
  now rewrite Pt_centipoints, (Pt_out_of_range _ Hrange).
Qed.

Lemma style_para_dangling prs para points bold :
  get_paragraph prs para = None ->
  _style_para para points bold prs = inl ReferenceError.
Proof.
  intros Hp. unfold _style_para, set_font_name, on_font, bind.
  now rewrite on_paragraph_dangling.
Qed.

(** [_style_para] on a paragraph of any presentation.  For a size from
    1 pt to 4000 pt it returns, the paragraph is set in white Calibri of
    the given size and weight and left-aligned, its runs and line breaks
    are what they were, no other paragraph changes and no slide comes or
    goes.  For any other size it raises [ValueError]. *)
Theorem style_para_keeps_text
    (prs : Presentation) (para : ParaRef) (points : Z) (bold : bool)
    (p : Paragraph) :
  get_paragraph prs para = Some p ->
  (1 <= points <= 4000 ->
   exists prs',
     _style_para para points bold prs = inr (tt, prs') /\
     get_paragraph prs' para
     = Some (styled_paragraph points bold (para_content p)) /\
     (forall para', para' <> para ->
        get_paragraph prs' para' = get_paragraph prs para') /\
     length (slides prs') = length (slides prs)) /\
  (points < 1 \/ 4000 < points ->
   _style_para para points bold prs = inl ValueError).
Proof.
  intros Hp. split.
  - intros Hrange.
    exists (update_paragraph prs para
              (styled_paragraph points bold (para_content p))).
    split; [now apply (style_para_spec _ _ _ _ p) |].
    split; [eapply get_update_paragraph; eassumption |].
    split; [intros para' Hne; now apply get_update_paragraph_ne |].
    apply length_update_paragraph.
  - now apply (style_para_out_of_range _ _ _ _ p).
Qed.

Lemma style_para_keeps_text_witness :
  exists prs',
    _style_para (0%nat, 1%nat, 0%nat) 12 true (deck carousel_ordered)
    = inr (tt, prs') /\
    get_paragraph prs' (0%nat, 1%nat, 0%nat)
    = Some (styled_paragraph 12 true [TextRun "Outsmart, don't outspend"]).
Proof.
  destruct (proj1 (style_para_keeps_text (deck carousel_ordered)
                     (0%nat, 1%nat, 0%nat) 12 true _ eq_refl)
              ltac:(lia))
    as (prs' & Hrun & Hget & _).
  exists prs'. split; [exact Hrun | exact Hget].
Defined.

(** Styling a paragraph twice, the first time with a size that is taken,
    is styling it the second way: the later call overrides every property
    the earlier one set, or raises as it would have alone. *)
Theorem style_para_last_wins
    (prs : Presentation) (para : ParaRef) (points1 points2 : Z)
    (bold1 bold2 : bool) :
  1 <= points1 <= 4000 ->
  bind (_style_para para points1 bold1)
       (fun _ => _style_para para points2 bold2) prs
  = _style_para para points2 bold2 prs.
Proof.
  intros Hrange1. unfold bind at 1.
  destruct (get_paragraph prs para) as [p |] eqn:Hp.
  - rewrite (style_para_spec _ _ _ _ _ Hp Hrange1).
    pose proof (get_update_paragraph prs para p
                  (styled_paragraph points1 bold1 (para_content p)) Hp) as Hp'.
    destruct (Z_le_gt_dec 1 points2) as [Hlo | Hlo];
      [destruct (Z_le_gt_dec points2 4000) as [Hhi | Hhi] | ].
    + rewrite (style_para_spec _ _ _ _ _ Hp' (conj Hlo Hhi)).
      rewrite update_update_paragraph. cbn [para_content styled_paragraph].
      now rewrite (style_para_spec _ _ _ _ _ Hp (conj Hlo Hhi)).
    + rewrite (style_para_out_of_range _ _ _ _ _ Hp') by lia.
      now rewrite (style_para_out_of_range _ _ _ _ _ Hp) by lia.
    + rewrite (style_para_out_of_range _ _ _ _ _ Hp') by lia.
      now rewrite (style_para_out_of_range _ _ _ _ _ Hp) by lia.
  - now rewrite !style_para_dangling.
Qed.

Lemma style_para_last_wins_witness :
  bind (_style_para (0%nat, 1%nat, 0%nat) 12 true)
       (fun _ => _style_para (0%nat, 1%nat, 0%nat) 20 false)
       (deck carousel_ordered)
  = _style_para (0%nat, 1%nat, 0%nat) 20 false (deck carousel_ordered).
Proof.
  apply style_para_last_wins. lia.
Defined.

Lemma on_slide_lookup {A} prs r s (f : Slide -> Exn + (A * Slide)) :
  slides prs !! r = Some s ->
  on_slide r f prs
  = match f s with
    | inl e => inl e
    | inr (a, s') => inr (a, with_slide prs r s')
    end.
Proof.
  intros Hs. unfold on_slide. now rewrite Hs.
Qed.

Lemma black_bg_spec prs r s :
  slides prs !! r = Some s ->
  _black_bg r prs
  = inr (tt, with_slide prs r (mkSlide (FillSolid (Some black)) (sl_shapes s))).
Proof.
  intros Hs.
  assert (Hlt : (r < length (slides prs))%nat) by (eapply lookup_lt_Some, Hs).
  unfold _black_bg, background_fill, solid, set_fore_color_rgb, bind, assign.
  rewrite (on_slide_lookup _ _ _ _ Hs).
  erewrite on_slide_lookup by (cbn; now apply list_lookup_insert_eq).
  cbn.
  erewrite on_slide_lookup
    by (cbn; rewrite list_lookup_insert_eq;
        [reflexivity | now rewrite length_insert]).
  destruct s as [[| | c] shapes]; unfold with_slide; cbn;
    now rewrite !list_insert_insert_eq.
Qed.

(** [_black_bg] on a slide of any presentation: whatever fill the slide
    had (inherited, none, or solid in any colour), the call returns and the
    background is solid black; the shapes of the slide, hence every
    paragraph, and the other slides are as before. *)
Theorem black_bg_any_fill (prs : Presentation) (r : SlideRef) (s : Slide) :
  get_slide prs r = Some s ->
  exists prs',
    _black_bg r prs = inr (tt, prs') /\
    get_slide prs' r = Some (mkSlide (FillSolid (Some black)) (sl_shapes s)) /\
    (forall r', r' <> r -> get_slide prs' r' = get_slide prs r') /\
    (forall para, get_paragraph prs' para = get_paragraph prs para).
Proof.
  unfold get_slide. intros Hs.
  assert (Hlt : (r < length (slides prs))%nat) by (eapply lookup_lt_Some, Hs).
  exists (with_slide prs r (mkSlide (FillSolid (Some black)) (sl_shapes s))).
  split; [now apply black_bg_spec |].
  split; [cbn; now apply list_lookup_insert_eq |].
  split; [intros r' Hne; cbn; apply list_lookup_insert_ne; congruence |].
  intros [[r' k] i]. unfold get_paragraph, get_shape, get_slide; cbn.
  destruct (decide (r = r')) as [<- | Hne].
  - rewrite list_lookup_insert_eq by exact Hlt. now rewrite Hs.
  - now rewrite list_lookup_insert_ne.
Qed.

Lemma black_bg_any_fill_witness :
  exists prs',
    _black_bg 0%nat
      (mkPresentation 1 1 [] [mkSlide (FillSolid (Some white)) []])
    = inr (tt, prs') /\
    get_slide prs' 0%nat = Some (mkSlide (FillSolid (Some black)) []).
Proof.
  destruct (black_bg_any_fill
              (mkPresentation 1 1 [] [mkSlide (FillSolid (Some white)) []])
              0%nat _ eq_refl)
    as (prs' & Hrun & Hget & _).
  exists prs'. split; [exact Hrun | exact Hget].
Defined.

(** Blackening a background twice is blackening it once. *)
Theorem black_bg_idempotent (prs : Presentation) (r : SlideRef) :
  bind (_black_bg r) (fun _ => _black_bg r) prs = _black_bg r prs.
Proof.
  unfold bind at 1.
  destruct (slides prs !! r) as [s |] eqn:Hs.
  - assert (Hlt : (r < length (slides prs))%nat) by (eapply lookup_lt_Some, Hs).
    rewrite (black_bg_spec _ _ _ Hs).
    erewrite black_bg_spec by (cbn; now apply list_lookup_insert_eq).
    unfold with_slide; cbn. now rewrite list_insert_insert_eq.
  - unfold _black_bg, background_fill, bind, on_slide. now rewrite Hs.
Qed.

(* ====================================================================== *)
(** ** More on the rendered deck *)

Lemma two_regions_cover cover : two_regions (cover_slide cover).
Proof. split; [reflexivity | repeat constructor]. Qed.

Lemma two_regions_qa qa : two_regions (qa_slide qa).
Proof. split; [reflexivity | repeat constructor]. Qed.

(** Every slide of a deck that [build_pptx] returns has exactly two text
    regions, the placeholders 0 and 1 of its layout, and each region has
    exactly one paragraph, set in Calibri. *)
Theorem build_pptx_two_regions (carousel : Carousel.t) (prs : Presentation) :
  renders_to carousel prs -> Forall two_regions (slides prs).
Proof.
  intros [-> _]%renders_to_deck.
  cbn. constructor; [apply two_regions_cover |].
  apply Forall_fmap, Forall_forall. intros qa _. apply two_regions_qa.
Qed.

Lemma build_pptx_two_regions_witness :
  renders_to carousel_ordered (deck carousel_ordered) /\
  Forall two_regions (slides (deck carousel_ordered)).
Proof.
  split; [exact renderable_carousel_ordered |].
  exact (build_pptx_two_regions carousel_ordered (deck carousel_ordered)
           renderable_carousel_ordered).
Defined.

(** Plain texts that are written as the same runs are the same text. *)
Lemma text_elements_plain_inj v1 v2 :
  plain_text v1 = true -> plain_text v2 = true ->
  text_elements v1 = text_elements v2 -> v1 = v2.
Proof.
  intros H1 H2 H.
  rewrite <- (rendered_text_plain v1 H1), <- (rendered_text_plain v2 H2).
  unfold rendered_text. now rewrite H.
Qed.

Lemma qa_slides_same l1 : forall l2,
  forallb plain_qa l1 = true -> forallb plain_qa l2 = true ->
  map qa_slide l1 = map qa_slide l2 -> Forall2 same_qa l1 l2.
Proof.
  induction l1 as [| q1 l1 IH]; intros [| q2 l2] H1 H2 H; try discriminate.
  - constructor.
  - cbn in H, H1, H2.
    apply andb_prop in H1 as [[Hq1 Ha1]%andb_prop Hl1].
    apply andb_prop in H2 as [[Hq2 Ha2]%andb_prop Hl2].
    injection H as Hq Ha Hl.
    constructor; [| now apply IH].
    repeat split.
    + now destruct (QASlide.type q1), (QASlide.type q2).
    + now apply text_elements_plain_inj.
    + now apply text_elements_plain_inj.
Qed.

(** On plain texts, rendering keeps everything but the positions: two
    carousels with plain texts and the same rendered document have the same
    title, subtitle, questions and answers, record by record. *)
Theorem build_pptx_determines_content (c1 c2 : Carousel.t) :
  plain_carousel c1 = true -> plain_carousel c2 = true ->
  build_pptx c1 = build_pptx c2 -> differ_only_in_position c1 c2.
Proof.
  intros Hp1 Hp2.
  rewrite !build_pptx_spec.
  rewrite (plain_carousel_renderable _ Hp1), (plain_carousel_renderable _ Hp2).
  unfold plain_carousel in Hp1, Hp2.
  apply andb_prop in Hp1 as [[Ht1 Hs1]%andb_prop Hq1].
  apply andb_prop in Hp2 as [[Ht2 Hs2]%andb_prop Hq2].
  intros [= Ht Hs Hqa]. split.
  - repeat split.
    + now destruct (CoverSlide.type (Carousel.cover c1)),
                   (CoverSlide.type (Carousel.cover c2)).
    + now apply text_elements_plain_inj.
    + now apply text_elements_plain_inj.
  - now apply qa_slides_same.
Qed.

Lemma build_pptx_determines_content_witness :
  differ_only_in_position carousel_unordered carousel_ordered.
Proof.
  apply (build_pptx_determines_content carousel_unordered carousel_ordered);
    [reflexivity | reflexivity |].
  rewrite !build_pptx_spec. reflexivity.
Defined.

Lemma forallb_app_l {A} (f : A -> bool) l1 l2 :
  forallb f (l1 ++ l2) = true -> forallb f l1 = true.
Proof.
  induction l1 as [| x l1 IH]; [reflexivity |].
  cbn. intros [Hx Hl]%andb_prop. now rewrite Hx, (IH Hl).
Qed.

(** One more record at the end of the list gives one more slide at the end
    of the deck and leaves the slides before it as they are: whenever the
    longer carousel is rendered, so is the shorter one, and the longer deck
    is the shorter one followed by a slide that reads the question and the
    answer of the added record. *)
Theorem build_pptx_append
    (cover : CoverSlide.t) (qas : list QASlide.t) (qa : QASlide.t)
    (prs' : Presentation) :
  renders_to (Carousel.mk cover (qas ++ [qa])) prs' ->
  exists prs s,
    renders_to (Carousel.mk cover qas) prs /\
    slides prs' = (slides prs ++ [s])%list /\
    text_regions s = [rendered_text (QASlide.question qa);
                      rendered_text (QASlide.answer qa)].
Proof.
  intros [-> Hok]%renders_to_deck.
  exists (deck (Carousel.mk cover qas)), (qa_slide qa).
  split.
  - apply renderable_renders. unfold renderable in *. cbn in *.
    apply andb_prop in Hok as [Hcover Hqas].
    now rewrite Hcover, (forallb_app_l _ _ _ Hqas).
  - split; [| reflexivity]. cbn. now rewrite map_app.
Qed.

Lemma build_pptx_append_witness :
  exists prs s,
    renders_to (Carousel.mk game_theory_cover [nash_qa 2]) prs /\
    slides (deck carousel_ordered) = (slides prs ++ [s])%list.
Proof.
  destruct (build_pptx_append game_theory_cover [nash_qa 2] (zero_sum_qa 3)
              (deck carousel_ordered) renderable_carousel_ordered)
    as (prs & s & Hprs & Hs & _).
  exists prs, s. split; [exact Hprs | exact Hs].
Defined.

(* ====================================================================== *)
(** ** More on the outline validator *)

Lemma validate_Literal_inv {A} lit (a x : A) t :
  validate_Literal lit a t = inr x -> t = JStr lit.
Proof.
  destruct t; try discriminate. cbn.
  destruct (String.eqb_spec s lit) as [-> | _]; [reflexivity | discriminate].
Qed.

Lemma required_inv {A} k (conv : json -> Exn + A) j x :
  required k conv j = inr x ->
  exists v, get_field k j = Some v /\ conv v = inr x.
Proof.
  unfold required. destruct (get_field k j) as [v |]; [| discriminate].
  intros H. now exists v.
Qed.

Lemma validate_str_inv to_str v s :
  validate_str to_str v = inr s -> to_str v = Some s.
Proof.
  unfold validate_str. destruct (to_str v); congruence.
Qed.

Lemma QASlide_validate_content to_int to_str j qa :
  QASlide_validate to_int to_str j = inr qa ->
  get_field "type" j = Some (JStr "qa") /\
  payload_text to_str "question" j (QASlide.question qa) /\
  payload_text to_str "answer" j (QASlide.answer qa).
Proof.
  unfold QASlide_validate.
  destruct (required "slide_number" _ j) as [| n]; [discriminate |].
  destruct (required "type" _ j) as [| ty] eqn:Hty; [discriminate |].
  destruct (required "question" _ j) as [| q] eqn:Hq; [discriminate |].
  destruct (required "answer" _ j) as [| a] eqn:Ha; [discriminate |].
  intros [= <-]. cbn.
  apply required_inv in Hty as (t & Ht & Hlit).
  apply required_inv in Hq as (vq & Hvq & Hq).
  apply required_inv in Ha as (va & Hva & Ha).
  apply validate_Literal_inv in Hlit as ->.
  apply validate_str_inv in Hq, Ha.
  split; [exact Ht |]. split; [now exists vq | now exists va].
Qed.

Lemma CoverSlide_validate_content to_int to_str j c :
  CoverSlide_validate to_int to_str j = inr c ->
  get_field "type" j = Some (JStr "cover") /\
  payload_text to_str "title" j (CoverSlide.title c) /\
  payload_text to_str "subtitle" j (CoverSlide.subtitle c).
Proof.
  unfold CoverSlide_validate.
  destruct (required "slide_number" _ j) as [| n]; [discriminate |].
  destruct (required "type" _ j) as [| ty] eqn:Hty; [discriminate |].
  destruct (required "title" _ j) as [| q] eqn:Hq; [discriminate |].
  destruct (required "subtitle" _ j) as [| a] eqn:Ha; [discriminate |].
  intros [= <-]. cbn.
  apply required_inv in Hty as (t & Ht & Hlit).
  apply required_inv in Hq as (vq & Hvq & Hq).
  apply required_inv in Ha as (va & Hva & Ha).
  apply validate_Literal_inv in Hlit as ->.
  apply validate_str_inv in Hq, Ha.
  split; [exact Ht |]. split; [now exists vq | now exists va].
Qed.

Lemma validate_items_Forall2 {A} (conv : json -> Exn + A) items : forall xs,
  validate_items conv items = inr xs ->
  Forall2 (fun j x => conv j = inr x) items xs.
Proof.
  induction items as [| j items IH]; intros xs; cbn.
  - intros [= <-]. constructor.
  - destruct (conv j) as [| x] eqn:Hj; [discriminate |].
    destruct (validate_items conv items) as [| xs']; [discriminate |].
    intros [= <-]. constructor; [exact Hj | now apply IH].
Qed.

(** What acceptance guarantees.  An accepted payload has a cover block
    tagged ["cover"] and a list under ["qa_slides"] whose items are all
    tagged ["qa"]; the carousel has one record per item, in the same order,
    and its texts are the ones the validator reads in the payload. *)
Theorem accepted_payload_shape
    (to_int : json -> option Z) (to_str : json -> option string)
    (p : json) (c : Carousel.t) :
  Carousel_validate to_int to_str p = inr c ->
  exists jc items,
    get_field "cover" p = Some jc /\
    get_field "type" jc = Some (JStr "cover") /\
    payload_text to_str "title" jc (CoverSlide.title (Carousel.cover c)) /\
    payload_text to_str "subtitle" jc (CoverSlide.subtitle (Carousel.cover c)) /\
    get_field "qa_slides" p = Some (JArr items) /\
    length items = length (Carousel.qa_slides c) /\
    Forall2 (fun j qa =>
               get_field "type" j = Some (JStr "qa") /\
               payload_text to_str "question" j (QASlide.question qa) /\
               payload_text to_str "answer" j (QASlide.answer qa))
            items (Carousel.qa_slides c).
Proof.
  unfold Carousel_validate.
  destruct (required "cover" _ p) as [| cover] eqn:Hcover; [discriminate |].
  destruct (required "qa_slides" _ p) as [| qas] eqn:Hqas; [discriminate |].
  intros [= <-]. cbn.
  apply required_inv in Hcover as (jc & Hjc & Hcover).
  apply required_inv in Hqas as (v & Hv & Hlist).
  destruct v as [| | | | items |]; try discriminate.
  cbn [validate_List] in Hlist.
  apply validate_items_Forall2 in Hlist.
  destruct (CoverSlide_validate_content _ _ _ _ Hcover) as (Hty & Ht & Hs).
  exists jc, items. repeat split; try assumption.
  - eapply Forall2_length, Hlist.
  - eapply Forall2_impl; [exact Hlist |].
    intros j qa Hj. now apply (QASlide_validate_content to_int to_str).
Qed.

Lemma accepted_payload_shape_witness :
  exists jc items,
    get_field "cover" payload_unordered = Some jc /\
    get_field "type" jc = Some (JStr "cover") /\
    get_field "qa_slides" payload_unordered = Some (JArr items) /\
    length items = 2%nat.
Proof.
  destruct (accepted_payload_shape int_of_JInt str_of_JStr
              payload_unordered carousel_unordered eq_refl)
    as (jc & items & Hjc & Hty & _ & _ & Hitems & Hlen & _).
  exists jc, items. repeat split; assumption.
Defined.

Lemma validate_items_to_json to_int to_str
    (Hint : forall z, to_int (JInt z) = Some z)
    (Hstr : forall s, to_str (JStr s) = Some s) qas :
  validate_items (QASlide_validate to_int to_str) (map QASlide_to_json qas)
  = inr qas.
Proof.
  induction qas as [| [n [] q a] qas IH]; [reflexivity |].
  cbn [map validate_items]. rewrite IH.
  unfold QASlide_validate, QASlide_to_json, json_qa, required,
    validate_int, validate_str; cbn.
  now rewrite Hint, !Hstr.
Qed.

(** What the validator never rejects.  With conversions that take a JSON
    integer for an [int] and a JSON string for a [str], the object that
    holds the fields of any carousel validates to that carousel: no
    position, no text (the empty one included) and no number of pairs is
    turned down. *)
Theorem Carousel_validate_to_json
    (to_int : json -> option Z) (to_str : json -> option string)
    (c : Carousel.t) :
  (forall z, to_int (JInt z) = Some z) ->
  (forall s, to_str (JStr s) = Some s) ->
  Carousel_validate to_int to_str (Carousel_to_json c) = inr c.
Proof.
  intros Hint Hstr. destruct c as [[n [] t s] qas].
  unfold Carousel_validate, Carousel_to_json, json_carousel, required; cbn.
  unfold CoverSlide_validate, json_cover, required,
    validate_int, validate_str; cbn.
  rewrite Hint, !Hstr.
  now rewrite (validate_items_to_json to_int to_str Hint Hstr).
Qed.

Lemma Carousel_validate_to_json_witness :
  Carousel_validate int_of_JInt str_of_JStr
    (Carousel_to_json (Carousel.mk (CoverSlide.mk (-4) LitCover "" "") []))
  = inr (Carousel.mk (CoverSlide.mk (-4) LitCover "" "") []).
Proof.
  exact (Carousel_validate_to_json int_of_JInt str_of_JStr
           (Carousel.mk (CoverSlide.mk (-4) LitCover "" "") [])
           (fun z => eq_refl) (fun s => eq_refl)).
Defined.

Lemma validate_List_raises {A} (conv : json -> Exn + A) :
  only_ValidationError conv -> only_ValidationError (validate_List conv).
Proof.
  intros Hconv j e. destruct j; cbn; try congruence.
  now apply validate_items_raises.
Qed.

Lemma Carousel_validate_raises to_int to_str :
  only_ValidationError (Carousel_validate to_int to_str).
Proof.
  intros p e. unfold Carousel_validate.
  destruct (required "cover" _ p) as [e1 |] eqn:H1.
  - intros [= <-]. eapply required_raises, H1.
    apply CoverSlide_validate_raises.
  - destruct (required "qa_slides" _ p) as [e2 |] eqn:H2; [| discriminate].
    intros [= <-]. eapply required_raises, H2.
    apply validate_List_raises, QASlide_validate_raises.
Qed.

Lemma CoverSlide_validate_keys to_int to_str j c :
  CoverSlide_validate to_int to_str j = inr c ->
  forall k, In k cover_keys -> get_field k j <> None.
Proof.
  unfold CoverSlide_validate.
  destruct (required "slide_number" _ j) as [| n] eqn:H1; [discriminate |].
  destruct (required "type" _ j) as [| ty] eqn:H2; [discriminate |].
  destruct (required "title" _ j) as [| t] eqn:H3; [discriminate |].
  destruct (required "subtitle" _ j) as [| s] eqn:H4; [discriminate |].
  intros _ k Hk.
  apply required_inv in H1 as (v1 & Hv1 & _), H2 as (v2 & Hv2 & _),
    H3 as (v3 & Hv3 & _), H4 as (v4 & Hv4 & _).
  destruct Hk as [<- | [<- | [<- | [<- | []]]]]; congruence.
Qed.

Lemma QASlide_validate_keys to_int to_str j qa :
  QASlide_validate to_int to_str j = inr qa ->
  forall k, In k qa_keys -> get_field k j <> None.
Proof.
  unfold QASlide_validate.
  destruct (required "slide_number" _ j) as [| n] eqn:H1; [discriminate |].
  destruct (required "type" _ j) as [| ty] eqn:H2; [discriminate |].
  destruct (required "question" _ j) as [| t] eqn:H3; [discriminate |].
  destruct (required "answer" _ j) as [| s] eqn:H4; [discriminate |].
  intros _ k Hk.
  apply required_inv in H1 as (v1 & Hv1 & _), H2 as (v2 & Hv2 & _),
    H3 as (v3 & Hv3 & _), H4 as (v4 & Hv4 & _).
  destruct Hk as [<- | [<- | [<- | [<- | []]]]]; congruence.
Qed.

Lemma Forall2_In_l {A B} (R : A -> B -> Prop) l1 l2 x :
  Forall2 R l1 l2 -> In x l1 -> exists y, R x y.
Proof.
  induction 1 as [| a b l1 l2 HR _ IH]; intros Hin; [destruct Hin |].
  destruct Hin as [<- | Hin]; [now exists b | now apply IH].
Qed.

(** Every field is required.  A payload with no ["qa_slides"], or with
    something other than a list under it, or with a cover block or a pair
    that lacks one of its four fields, makes the validator raise. *)
Theorem missing_field_rejected
    (to_int : json -> option Z) (to_str : json -> option string) (p : json) :
  get_field "qa_slides" p = None \/
  (exists v, get_field "qa_slides" p = Some v /\
             forall items, v <> JArr items) \/
  (exists jc k, get_field "cover" p = Some jc /\
                In k cover_keys /\ get_field k jc = None) \/
  (exists items q k, get_field "qa_slides" p = Some (JArr items) /\
                     In q items /\ In k qa_keys /\ get_field k q = None) ->
  Carousel_validate to_int to_str p = inl ValidationError.
Proof.
  intros Hbad.
  destruct (Carousel_validate to_int to_str p) as [e | c] eqn:Hval.
  - f_equal. eapply Carousel_validate_raises, Hval.
  - exfalso. unfold Carousel_validate in Hval.
    destruct (required "cover" _ p) as [| cover] eqn:Hcover; [discriminate |].
    destruct (required "qa_slides" _ p) as [| qas] eqn:Hqas; [discriminate |].
    apply required_inv in Hcover as (jc & Hjc & Hcover).
    apply required_inv in Hqas as (v & Hv & Hlist).
    destruct Hbad as [Hnone | [(v' & Hv' & Hnot) | [(jc' & k & Hjc' & Hk & Hmiss)
                     | (items & q & k & Hitems & Hq & Hk & Hmiss)]]].
    + congruence.
    + assert (v' = v) as -> by congruence.
      destruct v; try discriminate. now apply (Hnot items).
    + assert (jc' = jc) as -> by congruence.
      now apply (CoverSlide_validate_keys _ _ _ _ Hcover k Hk).
    + rewrite Hitems in Hv. injection Hv as <-.
      cbn [validate_List] in Hlist.
      apply validate_items_Forall2 in Hlist.
      destruct (Forall2_In_l _ _ _ _ Hlist Hq) as (qa & Hqa).
      now apply (QASlide_validate_keys _ _ _ _ Hqa k Hk).
Qed.

Lemma missing_field_rejected_witness :
  Carousel_validate int_of_JInt str_of_JStr
    (json_carousel
       (JObj [("slide_number", JInt 1); ("type", JStr "cover");
              ("title", JStr "Game Theory")]) [])
  = inl ValidationError.
Proof.
  apply missing_field_rejected.
  right; right; left.
  eexists _, "subtitle". split; [reflexivity |].
  split; [cbn; tauto | reflexivity].
Defined.

(* ====================================================================== *)
(* ====================================================================== *)
(** ** More on the submit handler *)




(** No run of the handler reaches the end of the block, whatever is
    submitted and whatever the completion service does: every run stops at
    a check or ends in an exception. *)
Theorem no_run_completes
    (complete_text : string -> string -> string -> Exn + string)
    (structured_response :
       string -> string -> string -> Exn + CompletionResponse)
    (topic api_key : string) :
  ending (on_submit complete_text structured_response topic api_key)
  <> Completed.
Proof.
  submit_cases; discriminate.
Qed.



Ltac split_events H l1 :=
  repeat (destruct l1 as [| ? l1]; cbn in H;
          [injection H as <- <- | injection H as <- H]);
  try (destruct l1; discriminate H).

(** No run calls the service more than once in either way; whatever
    precedes a structured call includes a completion call; and every call
    goes to the fixed model with the key that was submitted. *)
Theorem at_most_one_call_each
    (complete_text : string -> string -> string -> Exn + string)
    (structured_response :
       string -> string -> string -> Exn + CompletionResponse)
    (topic api_key : string) :
  (length (List.filter is_llm_complete
             (events (on_submit complete_text structured_response
                                topic api_key))) <= 1)%nat /\
  (length (List.filter is_sllm_complete
             (events (on_submit complete_text structured_response
                                topic api_key))) <= 1)%nat /\
  (forall l1 e l2,
     events (on_submit complete_text structured_response topic api_key)
     = (l1 ++ e :: l2)%list ->
     is_sllm_complete e = true ->
     existsb is_llm_complete l1 = true) /\
  Forall (call_uses_key api_key)
    (events (on_submit complete_text structured_response topic api_key)).
Proof.
  submit_cases; unfold both_calls, before_call; cbn;
    (split; [lia |]); (split; [lia |]);
    (split; [| repeat constructor]);
    intros l1 ev l2 H He;
    split_events H l1; try discriminate He; reflexivity.
Qed.

Lemma at_most_one_call_each_witness :
  existsb is_llm_complete (before_call "Game Theory" "gsk_key") = true.
Proof.
  apply (proj1 (proj2 (proj2 (at_most_one_call_each (const_text "raw")
                                (fun _ _ _ => inl TransportFailure)
                                "Game Theory" "gsk_key")))
           (before_call "Game Theory" "gsk_key")
           (sllm_complete model_id "gsk_key" "raw") []);
    reflexivity.
Defined.

Ltac in_events H :=
  cbn in H; repeat destruct H as [H | H];
  try discriminate H; try contradiction.

(** Which message is shown.  The one about the topic is shown exactly when
    the topic is empty, whatever the key field holds; the one about the key
    exactly when there is a topic and the key is empty; and a run that
    shows a message shows nothing else. *)
Theorem topic_checked_first
    (complete_text : string -> string -> string -> Exn + string)
    (structured_response :
       string -> string -> string -> Exn + CompletionResponse)
    (topic api_key : string) :
  (In (st_error "Please enter a topic.")
      (events (on_submit complete_text structured_response topic api_key))
   <-> topic = "") /\
  (In (st_error "Please enter your Groq API key.")
      (events (on_submit complete_text structured_response topic api_key))
   <-> topic <> "" /\ api_key = "") /\
  (forall body,
     In (st_error body)
        (events (on_submit complete_text structured_response topic api_key)) ->
     events (on_submit complete_text structured_response topic api_key)
     = [st_error body]).
Proof.
  rewrite !on_submit_cases.
  destruct topic as [| a topic]; [| destruct api_key as [| b api_key]];
    cbn [truthy negb].
  - split; [| split].
    + split; [reflexivity | intros _; now left].
    + split; [intros H; in_events H | intros [H _]; now destruct H].
    + intros body H. in_events H. now injection H as <-.
  - split; [| split].
    + split; [intros H; in_events H | discriminate].
    + split; [intros _; split; [discriminate | reflexivity] | intros _; now left].
    + intros body H. in_events H. now injection H as <-.
  - repeat match goal with
           | |- context [match ?x with _ => _ end] => destruct x eqn:?
           end;
      unfold both_calls, before_call;
      (split;
       [split; [intros H; in_events H | discriminate]
       | split;
         [split; [intros H; in_events H | intros [_ H]; discriminate H]
         | intros body H; in_events H]]).
Qed.

Lemma topic_checked_first_witness :
  events (on_submit (const_text "raw") (const_response response_unordered)
                    "" "")
  = [st_error "Please enter a topic."].
Proof.
  apply (proj2 (proj2 (topic_checked_first (const_text "raw")
                         (const_response response_unordered) "" ""))).
  apply (proj1 (topic_checked_first (const_text "raw")
                  (const_response response_unordered) "" "")).
  reflexivity.
Defined.

(** The key is in the environment before the service is called: in every
    run, whatever precedes an outbound call includes the assignment of the
    submitted key to [GROQ_API_KEY]. *)
Theorem environ_set_before_calls
    (complete_text : string -> string -> string -> Exn + string)
    (structured_response :
       string -> string -> string -> Exn + CompletionResponse)
    (topic api_key : string) (l1 l2 : list Event) (e : Event) :
  events (on_submit complete_text structured_response topic api_key)
  = (l1 ++ e :: l2)%list ->
  is_outbound_call e = true ->
  In (environ_set "GROQ_API_KEY" api_key) l1.
Proof.
  submit_cases; unfold both_calls, before_call; cbn; intros H He;
    split_events H l1; try discriminate He; cbn; tauto.
Qed.

Lemma environ_set_before_calls_witness :
  In (environ_set "GROQ_API_KEY" "gsk_key")
     [load_dotenv; environ_set "GROQ_API_KEY" "gsk_key";
      st_spinner "Contacting Groq, generating content…"].
Proof.
  apply (environ_set_before_calls (fun _ _ _ => inl TransportFailure)
           (const_response response_unordered)
           "Game Theory" "gsk_key" _ []
           (llm_complete model_id "gsk_key" (PROMPT_TMPL_format "Game Theory")));
    reflexivity.
Defined.

(* ====================================================================== *)
(** ** More on the file name *)

Lemma get_append_inv s1 s2 : forall i c,
  String.get i (s1 +:+ s2) = Some c ->
  String.get i s1 = Some c \/ exists j, String.get j s2 = Some c.
Proof.
  induction s1 as [| a s1 IH]; intros i c H.
  - right. now exists i.
  - destruct i as [| i]; [left; exact H |].
    apply (IH i c H).
Qed.

Lemma replace_no_old old new s : new <> old -> forall i,
  String.get i (replace old new s) <> Some old.
Proof.
  intros Hne i. rewrite get_replace.
  destruct (String.get i s) as [c |]; [| discriminate].
  cbn. destruct (Ascii.eqb_spec c old); congruence.
Qed.

(** No file name has a space in it, whatever the topic. *)
Theorem file_name_no_space (topic : string) (i : nat) :
  String.get i (file_name topic) <> Some " "%char.
Proof.
  unfold file_name. intros H.
  apply get_append_inv in H as [H | [j H]].
  - do 18 (destruct i as [| i]; [discriminate H |]). discriminate H.
  - apply get_append_inv in H as [H | [k H]].
    + now apply (replace_no_old " " "_" topic) in H.
    + do 5 (destruct k as [| k]; [discriminate H |]). discriminate H.
Qed.

Lemma replace_idempotent old new s :
  new <> old -> replace old new (replace old new s) = replace old new s.
Proof.
  intros Hne. induction s as [| c s IH]; [reflexivity |].
  cbn. rewrite IH. f_equal.
  destruct (Ascii.eqb_spec c old) as [-> | Hc].
  - destruct (Ascii.eqb_spec new old); congruence.
  - destruct (Ascii.eqb_spec c old); congruence.
Qed.

(** A topic and the same topic with its spaces written as underscores get
    the same file name: the name does not tell the two apart. *)
Theorem file_name_underscored (topic : string) :
  file_name (replace " " "_" topic) = file_name topic.
Proof.
  unfold file_name. now rewrite replace_idempotent.
Qed.

Lemma replace_absent old new s :
  (forall i, String.get i s <> Some old) -> replace old new s = s.
Proof.
  induction s as [| c s IH]; intros H; [reflexivity |].
  cbn. rewrite IH by (intros i; apply (H (S i))).
  destruct (Ascii.eqb_spec c old) as [-> | _]; [| reflexivity].
  now destruct (H 0%nat).
Qed.

(** A topic without a space goes into the file name as it is. *)
Theorem file_name_without_space (topic : string) :
  (forall i, String.get i topic <> Some " "%char) ->
  file_name topic = "LinkedIn_Carousel_" +:+ topic +:+ ".pptx".
Proof.
  intros H. unfold file_name. now rewrite replace_absent.
Qed.

Lemma file_name_without_space_witness :
  file_name "AI" = "LinkedIn_Carousel_AI.pptx".
Proof.
  apply (file_name_without_space "AI").
  intros i. do 2 (destruct i as [| i]; [discriminate |]). discriminate.
Defined.

(* ====================================================================== *)
(** ** The prompt *)

Lemma append_inj_l s : forall a b, s +:+ a = s +:+ b -> a = b.
Proof.
  induction s as [| c s IH]; intros a b H; [exact H |].
  injection H as H. now apply IH.
Qed.

Lemma append_inj_length a : forall b x y,
  String.length a = String.length b -> a +:+ x = b +:+ y -> a = b.
Proof.
  induction a as [| c a IH]; intros [| d b] x y Hlen H; try discriminate.
  - reflexivity.
  - injection Hlen as Hlen. injection H as -> H.
    f_equal. now apply (IH b x y).
Qed.

Lemma substring_0_append t : forall rest,
  substring 0 (String.length t) (t +:+ rest) = t.
Proof.
  induction t as [| d t IH]; intros rest.
  - now destruct rest.
  - change (String d (substring 0 (String.length t) (t +:+ rest)) = String d t).
    now rewrite IH.
Qed.

Lemma substring_skip s : forall n m x,
  substring (String.length s + n) m (s +:+ x) = substring n m x.
Proof.
  induction s as [| c s IH]; intros n m x; [reflexivity | apply IH].
Qed.

(** The prompt holds the topic verbatim, twice: once after the opening
    line and once in the format that the reply is to follow. *)
Theorem prompt_contains_topic (topic : string) :
  substring (String.length PROMPT_TMPL_1) (String.length topic)
    (PROMPT_TMPL_format topic) = topic /\
  substring (String.length PROMPT_TMPL_1 + String.length topic
             + String.length PROMPT_TMPL_2)
    (String.length topic) (PROMPT_TMPL_format topic) = topic.
Proof.
  unfold PROMPT_TMPL_format. split.
  - rewrite <- (Nat.add_0_r (String.length PROMPT_TMPL_1)).
    rewrite substring_skip. apply substring_0_append.
  - replace (String.length PROMPT_TMPL_1 + String.length topic
             + String.length PROMPT_TMPL_2)%nat
      with (String.length PROMPT_TMPL_1
            + (String.length topic + (String.length PROMPT_TMPL_2 + 0)))%nat
      by lia.
    rewrite !substring_skip. apply substring_0_append.
Qed.

(** Two topics with the same prompt are the same topic. *)
Theorem prompt_injective (topic1 topic2 : string) :
  PROMPT_TMPL_format topic1 = PROMPT_TMPL_format topic2 -> topic1 = topic2.
Proof.
  unfold PROMPT_TMPL_format. intros H.
  assert (Hlen : String.length topic1 = String.length topic2).
  { apply (f_equal String.length) in H.
    rewrite !length_append in H. lia. }
  apply append_inj_l in H.
  exact (append_inj_length _ _ _ _ Hlen H).
Qed.

Lemma prompt_injective_witness : "Game Theory" = "Game Theory".
Proof.
  exact (prompt_injective "Game Theory" "Game Theory" eq_refl).
Defined.

(* ====================================================================== *)
(** ** The default of the key field *)

(** A non-empty [GROQ_API_KEY] in the environment is the default and the
    secrets are not read, so it does not matter what reading them would do.
    With the variable unset or empty the secret decides: a failure to read
    it escapes, and the default is empty exactly when there is no secret or
    an empty one. *)
Theorem api_default_prefers_env
    (env : option string) (secret : Exn + option string) :
  (forall v, env = Some v -> truthy v = true -> api_default env secret = inr v) /\
  (env = None \/ env = Some "" ->
   (forall e, secret = inl e -> api_default env secret = inl e) /\
   (forall s, secret = inr s ->
      (api_default env secret = inr "" <-> s = None \/ s = Some "") /\
      (forall v, s = Some v -> api_default env secret = inr v))).
Proof.
  split.
  - intros v -> Hv. unfold api_default. now rewrite Hv.
  - intros Henv.
    assert (Hfall : api_default env secret
                    = match secret with
                      | inl e => inl e
                      | inr v => inr (match v with Some s => s | None => "" end)
                      end)
      by (destruct Henv as [-> | ->]; reflexivity).
    rewrite Hfall. split.
    + now intros e ->.
    + intros s ->. split.
      * destruct s as [v |]; split; intros H; auto.
        -- injection H as ->. now right.
        -- destruct H as [H | [= ->]]; [discriminate | reflexivity].
      * now intros v ->.
Qed.

Lemma api_default_prefers_env_witness :
  api_default (Some "gsk_env") (inl KeyError) = inr "gsk_env".
Proof.
  exact (proj1 (api_default_prefers_env (Some "gsk_env") (inl KeyError))
           "gsk_env" eq_refl eq_refl).
Defined.

